(** * Perturbation-based detection: aggregation of log likelihoods and scoring

    A shallow embedding of [query_lls] and [run_perturbation_experiment]
    of [detect_chatgpt.py], with the properties the specification states
    about them.

    Conventions of the embedding.
    - Log likelihoods are Python/NumPy floats; they are modelled as exact
      real numbers ([R]): rounding, overflow and [nan] are not modelled.
    - A result record is a Python [dict] that is filled in place.  It is a
      Rocq record whose derived fields are optional: [None] is an absent key,
      reading it raises [KeyError].
    - The list [results] of records is mutated in place by both functions;
      they are state transformers over the contents of that list, and an
      exception leaves the mutations done so far in place.
    - [print] and [tqdm] output and the token count are telemetry and are
      left out. *)

From Stdlib Require Import Reals Lra Lia List String Bool Arith ZArith.
From Stdlib Require Import DecimalString.
From Stdlib Require Import Ascii NArith.
Import ListNotations.

Local Open Scope R_scope.
Local Open Scope string_scope.
Local Open Scope list_scope.

(** ** Exceptions and the state-and-exception monad *)

Inductive exn : Type :=
| KeyError (key : string)
| QueryError (msg : string).

(** A computation over a mutable object of type [S]: it ends with a value or
    with an exception, and in both cases with the object as it was left. *)
Definition M (S A : Type) : Type := S -> (exn + A) * S.

Definition ret {S A} (a : A) : M S A := fun s => (inr a, s).

Definition bind {S A B} (m : M S A) (k : A -> M S B) : M S B :=
  fun s =>
    match m s with
    | (inl e, s') => (inl e, s')
    | (inr a, s') => k a s'
    end.

Definition raise {S A} (e : exn) : M S A := fun s => (inl e, s).

Definition gets {S A} (f : S -> A) : M S A := fun s => (inr (f s), s).

Definition modify {S} (f : S -> S) : M S unit := fun s => (inr tt, f s).

(** The result of a call that may raise. *)
Definition call {S A} (r : exn + A) : M S A := fun s => (r, s).

Declare Scope py_scope.
Delimit Scope py_scope with py.
Notation "x <- m ;; k" := (bind m (fun x => k))
  (at level 100, m at next level, right associativity) : py_scope.
Notation "m ;;; k" := (bind m (fun _ => k))
  (at level 100, right associativity) : py_scope.

(** [for x in xs: body], where [body] mutates [x] and updates the local
    accumulator [acc]; an exception stops the loop where it is. *)
Fixpoint for_each {S A} (body : A -> M S A) (acc : A) (xs : list S)
  : (exn + A) * list S :=
  match xs with
  | [] => (inr acc, [])
  | x :: rest =>
      match body acc x with
      | (inl e, x') => (inl e, x' :: rest)
      | (inr acc', x') =>
          let '(r, rest') := for_each body acc' rest in (r, x' :: rest')
      end
  end.

(** ** Records *)

(** One entry of [results].  The first four keys come from the perturbation
    stage, the other eight are added by [query_lls]. *)
Record Res : Type := mkRes {
  original : string;
  sampled : string;
  perturbed_original : list string;
  perturbed_sampled : list string;
  original_ll : option R;
  sampled_ll : option R;
  all_perturbed_sampled_ll : option (list R);
  all_perturbed_original_ll : option (list R);
  perturbed_sampled_ll : option R;
  perturbed_original_ll : option R;
  perturbed_sampled_ll_std : option R;
  perturbed_original_ll_std : option R
}.

(** A record as the perturbation stage hands it over. *)
Definition partial_record (o s : string) (po ps : list string) : Res :=
  mkRes o s po ps None None None None None None None None.

Definition set_original_ll (v : R) (r : Res) : Res :=
  mkRes (original r) (sampled r) (perturbed_original r) (perturbed_sampled r)
    (Some v) (sampled_ll r) (all_perturbed_sampled_ll r)
    (all_perturbed_original_ll r) (perturbed_sampled_ll r)
    (perturbed_original_ll r) (perturbed_sampled_ll_std r)
    (perturbed_original_ll_std r).

Definition set_sampled_ll (v : R) (r : Res) : Res :=
  mkRes (original r) (sampled r) (perturbed_original r) (perturbed_sampled r)
    (original_ll r) (Some v) (all_perturbed_sampled_ll r)
    (all_perturbed_original_ll r) (perturbed_sampled_ll r)
    (perturbed_original_ll r) (perturbed_sampled_ll_std r)
    (perturbed_original_ll_std r).

Definition set_all_perturbed_sampled_ll (v : list R) (r : Res) : Res :=
  mkRes (original r) (sampled r) (perturbed_original r) (perturbed_sampled r)
    (original_ll r) (sampled_ll r) (Some v)
    (all_perturbed_original_ll r) (perturbed_sampled_ll r)
    (perturbed_original_ll r) (perturbed_sampled_ll_std r)
    (perturbed_original_ll_std r).

Definition set_all_perturbed_original_ll (v : list R) (r : Res) : Res :=
  mkRes (original r) (sampled r) (perturbed_original r) (perturbed_sampled r)
    (original_ll r) (sampled_ll r) (all_perturbed_sampled_ll r)
    (Some v) (perturbed_sampled_ll r)
    (perturbed_original_ll r) (perturbed_sampled_ll_std r)
    (perturbed_original_ll_std r).

Definition set_perturbed_sampled_ll (v : R) (r : Res) : Res :=
  mkRes (original r) (sampled r) (perturbed_original r) (perturbed_sampled r)
    (original_ll r) (sampled_ll r) (all_perturbed_sampled_ll r)
    (all_perturbed_original_ll r) (Some v)
    (perturbed_original_ll r) (perturbed_sampled_ll_std r)
    (perturbed_original_ll_std r).

Definition set_perturbed_original_ll (v : R) (r : Res) : Res :=
  mkRes (original r) (sampled r) (perturbed_original r) (perturbed_sampled r)
    (original_ll r) (sampled_ll r) (all_perturbed_sampled_ll r)
    (all_perturbed_original_ll r) (perturbed_sampled_ll r)
    (Some v) (perturbed_sampled_ll_std r)
    (perturbed_original_ll_std r).

Definition set_perturbed_sampled_ll_std (v : R) (r : Res) : Res :=
  mkRes (original r) (sampled r) (perturbed_original r) (perturbed_sampled r)
    (original_ll r) (sampled_ll r) (all_perturbed_sampled_ll r)
    (all_perturbed_original_ll r) (perturbed_sampled_ll r)
    (perturbed_original_ll r) (Some v)
    (perturbed_original_ll_std r).

Definition set_perturbed_original_ll_std (v : R) (r : Res) : Res :=
  mkRes (original r) (sampled r) (perturbed_original r) (perturbed_sampled r)
    (original_ll r) (sampled_ll r) (all_perturbed_sampled_ll r)
    (all_perturbed_original_ll r) (perturbed_sampled_ll r)
    (perturbed_original_ll r) (perturbed_sampled_ll_std r)
    (Some v).

(** [res[key]] for a derived key: [KeyError] when the key is absent. *)
Definition lookup {A} (key : string) (field : Res -> option A) : M Res A :=
  fun r =>
    match field r with
    | Some v => (inr v, r)
    | None => (inl (KeyError key), r)
    end.

(** ** NumPy reductions *)

Definition sum (l : list R) : R := fold_right Rplus 0 l.

(** [np.mean(l)]: the sum over the number of elements. *)
Definition np_mean (l : list R) : R := sum l / INR (List.length l).

(** [np.std(l)] with its default [ddof=0]:
    [sqrt(mean(abs(l - l.mean())**2))]. *)
Definition np_std (l : list R) : R :=
  sqrt (np_mean (map (fun x => Rabs (x - np_mean l) ^ 2) l)).

(** [np.std(p) if len(p) > 1 else 1] *)
Definition std_or_one (p : list R) : R :=
  if (1 <? List.length p)%nat then np_std p else 1.

(** ** query_lls *)

Section Aggregator.

(** [qp.get_ll(text, ...)] and [qp.get_lls(texts, ...)] of the querying
    module, for the backend and options of the run; either may raise. *)
Variable get_ll : string -> exn + R.
Variable get_lls : list string -> exn + list R.

(** The body of the loop of [query_lls], on the record [res]. *)
Definition query_lls_body : M Res unit :=
  (texts_s <- gets perturbed_sampled ;;
   p_sampled_ll <- call (get_lls texts_s) ;;
   texts_o <- gets perturbed_original ;;
   p_original_ll <- call (get_lls texts_o) ;;
   text_o <- gets original ;;
   o <- call (get_ll text_o) ;;
   modify (set_original_ll o) ;;;
   text_s <- gets sampled ;;
   s <- call (get_ll text_s) ;;
   modify (set_sampled_ll s) ;;;
   modify (set_all_perturbed_sampled_ll p_sampled_ll) ;;;
   modify (set_all_perturbed_original_ll p_original_ll) ;;;
   modify (set_perturbed_sampled_ll (np_mean p_sampled_ll)) ;;;
   modify (set_perturbed_original_ll (np_mean p_original_ll)) ;;;
   modify (set_perturbed_sampled_ll_std (std_or_one p_sampled_ll)) ;;;
   modify (set_perturbed_original_ll_std (std_or_one p_original_ll)))%py.

(** [query_lls(results, ...)]: the value is the list [results] itself, so
    the state after a normal return is what the caller gets. *)
Definition query_lls (results : list Res) : (exn + unit) * list Res :=
  for_each (fun _ => query_lls_body) tt results.

End Aggregator.

(** ** run_perturbation_experiment *)

(** The local dict [predictions = {'real': [], 'samples': []}]. *)
Record Predictions : Type := mkPredictions {
  real : list R;
  samples : list R
}.

Definition append_real (v : R) (p : Predictions) : Predictions :=
  mkPredictions (real p ++ [v]) (samples p).

Definition append_samples (v : R) (p : Predictions) : Predictions :=
  mkPredictions (real p) (samples p ++ [v]).

(** The dict [hyperparameters] built by the command line. *)
Record Hyperparameters : Type := mkHyperparameters {
  n_perturbations : Z;
  span_length : Z;
  perturb_pct : R;
  n_perturbation_rounds : Z
}.

Record RocMetrics : Type := mkRocMetrics {
  roc_auc : R;
  fpr : list R;
  tpr : list R
}.

Record PrMetrics : Type := mkPrMetrics {
  pr_auc : R;
  precision : list R;
  recall : list R
}.

(** The dict that [run_perturbation_experiment] returns.  [raw_results] is
    the list [results] itself, not a copy: it holds the records as the
    function left them. *)
Record Outcome : Type := mkOutcome {
  name : string;
  predictions : Predictions;
  info : Hyperparameters;
  raw_results : list Res;
  metrics : RocMetrics;
  pr_metrics : PrMetrics;
  loss : R
}.

(** [if res[key] == 0: res[key] = 1] on a standard-deviation field. *)
Definition floor_std (key : string) (field : Res -> option R)
  (set : R -> Res -> Res) : M Res unit :=
  (sd <- lookup key field ;;
   if Req_dec_T sd 0 then modify (set 1) else ret tt)%py.

(** The body of the loop of [run_perturbation_experiment], on the record
    [res]; a criterion other than ['d'] and ['z'] takes neither branch. *)
Definition predict_body (criterion : string) (preds : Predictions)
  : M Res Predictions :=
  (if criterion =? "d" then
     o <- lookup "original_ll" original_ll ;;
     po <- lookup "perturbed_original_ll" perturbed_original_ll ;;
     let preds := append_real (o - po) preds in
     s <- lookup "sampled_ll" sampled_ll ;;
     ps <- lookup "perturbed_sampled_ll" perturbed_sampled_ll ;;
     ret (append_samples (s - ps) preds)
   else if criterion =? "z" then
     floor_std "perturbed_original_ll_std" perturbed_original_ll_std
       set_perturbed_original_ll_std ;;;
     floor_std "perturbed_sampled_ll_std" perturbed_sampled_ll_std
       set_perturbed_sampled_ll_std ;;;
     o <- lookup "original_ll" original_ll ;;
     po <- lookup "perturbed_original_ll" perturbed_original_ll ;;
     sdo <- lookup "perturbed_original_ll_std" perturbed_original_ll_std ;;
     let preds := append_real ((o - po) / sdo) preds in
     s <- lookup "sampled_ll" sampled_ll ;;
     ps <- lookup "perturbed_sampled_ll" perturbed_sampled_ll ;;
     sds <- lookup "perturbed_sampled_ll_std" perturbed_sampled_ll_std ;;
     ret (append_samples ((s - ps) / sds) preds)
   else ret preds)%py.

(** The loop [for res in results: ...] with its local [predictions]. *)
Definition predict (criterion : string) (results : list Res)
  : (exn + Predictions) * list Res :=
  for_each (predict_body criterion) (mkPredictions [] []) results.

(** [str(n)] for an integer. *)
Definition str_int (n : Z) : string := NilZero.string_of_int (Z.to_int n).

Section Detector.

(** The two functions of the evaluation module, which is not part of the
    sources: pure functions of the two populations.  [format_float] is
    Python's formatting of a float inside an f-string. *)
Variable get_roc_metrics : list R -> list R -> list R * list R * R.
Variable get_precision_recall_metrics : list R -> list R -> list R * list R * R.
Variable format_float : R -> string.

Definition experiment_name (dataset criterion : string)
  (hyperparameters : Hyperparameters) : string :=
  (dataset ++ "_" ++ (if criterion =? "d" then "difference" else "z-score")
     ++ "_" ++ str_int (n_perturbations hyperparameters)
     ++ "_" ++ format_float (perturb_pct hyperparameters) ++ ".")%string.

(** What follows the loop: the metrics and the returned dict. *)
Definition make_outcome (results : list Res) (criterion : string)
  (hyperparameters : Hyperparameters) (dataset : string)
  (preds : Predictions) : Outcome :=
  let '(fpr, tpr, roc_auc) := get_roc_metrics (real preds) (samples preds) in
  let '(p, r, pr_auc) :=
    get_precision_recall_metrics (real preds) (samples preds) in
  mkOutcome (experiment_name dataset criterion hyperparameters)
    preds hyperparameters results
    (mkRocMetrics roc_auc fpr tpr) (mkPrMetrics pr_auc p r) (1 - pr_auc).

Definition run_perturbation_experiment (results : list Res)
  (criterion : string) (hyperparameters : Hyperparameters) (dataset : string)
  : (exn + Outcome) * list Res :=
  match predict criterion results with
  | (inl e, results') => (inl e, results')
  | (inr preds, results') =>
      (inr (make_outcome results' criterion hyperparameters dataset preds),
       results')
  end.

End Detector.

(** ** The Perturber *)

Section Perturber.

(** Modelled from the spec: the perturbation module ([perturb_texts]) is
    not part of the sources.  The masking policy and the infill model are
    free parameters.  [mask_spans passage span_length pct_masked variant
    round] is the masked text of one round and the number of masks it
    requested; [infill masked] is the list of fill tokens the model
    produced; [substitute masked fills] puts the fills in place of the
    placeholders. *)
Variable mask_spans : string -> nat -> R -> nat -> nat -> string * nat.
Variable infill : string -> list string.
Variable substitute : string -> list string -> string.

(** Modelled from the spec: one masking and infill round of one variant.
    The round is successful only if the number of distinct fill tokens
    equals the number of masks requested. *)
Definition perturb_round (passage : string) (span_length : nat)
  (pct_masked : R) (variant round : nat) : option string :=
  let '(masked, n_masks) :=
    mask_spans passage span_length pct_masked variant round in
  let fills := infill masked in
  if (List.length (nodup string_dec fills) =? n_masks)%nat
  then Some (substitute masked fills)
  else None.

(** Modelled from the spec: up to [n_rounds] rounds for one variant, the
    first successful one gives the variant; when all fail, the variant is
    the original unmasked passage. *)
Fixpoint perturb_variant (passage : string) (span_length : nat)
  (pct_masked : R) (variant : nat) (rounds_left round : nat) : string :=
  match rounds_left with
  | O => passage
  | S k =>
      match perturb_round passage span_length pct_masked variant round with
      | Some text => text
      | None =>
          perturb_variant passage span_length pct_masked variant k (S round)
      end
  end.

(** Modelled from the spec: [perturb(passage, span_length, pct_masked,
    n_variants, n_rounds)], one entry per variant. *)
Definition perturb (passage : string) (span_length : nat) (pct_masked : R)
  (n_variants n_rounds : nat) : list string :=
  map (fun variant =>
         perturb_variant passage span_length pct_masked variant n_rounds 0)
      (seq 0 n_variants).

End Perturber.

(** ** Statistics the specification names *)

(** The sum of squared deviations from the mean. *)
Definition sum_sq_dev (l : list R) : R :=
  sum (map (fun x => (x - np_mean l) ^ 2) l).

(** The population standard deviation: denominator [n]. *)
Definition population_std (l : list R) : R :=
  sqrt (sum_sq_dev l / INR (List.length l)).

(** The sample standard deviation in the words of the specification: the
    unbiased estimator, denominator [n - 1]. *)
Definition sample_std (l : list R) : R :=
  sqrt (sum_sq_dev l / (INR (List.length l) - 1)).

(** The record [r] after a successful pass of the body of [query_lls],
    with the scores [o], [s], [po] and [ps] the querier returned. *)
Definition populated_by (r : Res) (o s : R) (po ps : list R) : Res :=
  mkRes (original r) (sampled r) (perturbed_original r) (perturbed_sampled r)
    (Some o) (Some s) (Some ps) (Some po)
    (Some (np_mean ps)) (Some (np_mean po))
    (Some (std_or_one ps)) (Some (std_or_one po)).

(** [r'] is [r] as [query_lls] fills it from the querier's answers. *)
Definition aggregated (get_ll : string -> exn + R)
  (get_lls : list string -> exn + list R) (r r' : Res) : Prop :=
  exists o s po ps,
    get_ll (original r) = inr o /\ get_ll (sampled r) = inr s /\
    get_lls (perturbed_original r) = inr po /\
    get_lls (perturbed_sampled r) = inr ps /\
    r' = populated_by r o s po ps.

(** The guard of the z-score branch on a stored standard deviation. *)
Definition floored (sd : R) : R := if Req_dec_T sd 0 then 1 else sd.

(** A stored standard deviation is as it was, or it was 0 and is now 1. *)
Definition std_guarded (before after : option R) : Prop :=
  after = before \/ (before = Some 0 /\ after = Some 1).

(** [r'] has the fields of [r], but for a standard deviation of 0 that has
    become 1. *)
Definition same_but_floored_std (r r' : Res) : Prop :=
  original r' = original r /\ sampled r' = sampled r /\
  perturbed_original r' = perturbed_original r /\
  perturbed_sampled r' = perturbed_sampled r /\
  original_ll r' = original_ll r /\ sampled_ll r' = sampled_ll r /\
  all_perturbed_sampled_ll r' = all_perturbed_sampled_ll r /\
  all_perturbed_original_ll r' = all_perturbed_original_ll r /\
  perturbed_sampled_ll r' = perturbed_sampled_ll r /\
  perturbed_original_ll r' = perturbed_original_ll r /\
  std_guarded (perturbed_sampled_ll_std r) (perturbed_sampled_ll_std r') /\
  std_guarded (perturbed_original_ll_std r) (perturbed_original_ll_std r').

(** The record [r] with both stored standard deviations through the guard
    of the z-score branch. *)
Definition floor_record (r : Res) : Res :=
  mkRes (original r) (sampled r) (perturbed_original r) (perturbed_sampled r)
    (original_ll r) (sampled_ll r) (all_perturbed_sampled_ll r)
    (all_perturbed_original_ll r) (perturbed_sampled_ll r)
    (perturbed_original_ll r)
    (option_map floored (perturbed_sampled_ll_std r))
    (option_map floored (perturbed_original_ll_std r)).

(** ** Predicates of the statements *)

(** One of the four calls to the querier for the record [r] raises. *)
Definition querier_fails (get_ll : string -> exn + R)
  (get_lls : list string -> exn + list R) (r : Res) : Prop :=
  (exists e, get_lls (perturbed_sampled r) = inl e) \/
  (exists e, get_lls (perturbed_original r) = inl e) \/
  (exists e, get_ll (original r) = inl e) \/
  (exists e, get_ll (sampled r) = inl e).

(** All the scores of a sequence are the same number. *)
Definition identical (l : list R) : Prop :=
  exists c, forall x, In x l -> x = c.

(** The score of the original passage of [r] under the difference
    criterion, and that of its sampled passage. *)
Definition difference_real (r : Res) (x : R) : Prop :=
  exists o po,
    original_ll r = Some o /\ perturbed_original_ll r = Some po /\ x = o - po.

Definition difference_samples (r : Res) (y : R) : Prop :=
  exists s ps,
    sampled_ll r = Some s /\ perturbed_sampled_ll r = Some ps /\ y = s - ps.

(** The same under the z-score criterion: the divisor is the stored
    standard deviation through the guard. *)
Definition zscore_real (r : Res) (x : R) : Prop :=
  exists o po sd,
    original_ll r = Some o /\ perturbed_original_ll r = Some po /\
    perturbed_original_ll_std r = Some sd /\ x = (o - po) / floored sd.

Definition zscore_samples (r : Res) (y : R) : Prop :=
  exists s ps sd,
    sampled_ll r = Some s /\ perturbed_sampled_ll r = Some ps /\
    perturbed_sampled_ll_std r = Some sd /\ y = (s - ps) / floored sd.

(** Every key the detector reads is present. *)
Definition fully_populated (r : Res) : Prop :=
  (exists x, zscore_real r x) /\ (exists y, zscore_samples r y).

(** The record has the four keys the difference criterion reads. *)
Definition has_difference_keys (r : Res) : Prop :=
  (exists x, difference_real r x) /\ (exists y, difference_samples r y).

(** [x] is [ll - mean(lls)] for the stored score [ll] of a text and the
    stored scores [lls] of its perturbations. *)
Definition ll_minus_mean (ll : option R) (lls : option (list R)) (x : R)
  : Prop :=
  exists o l, ll = Some o /\ lls = Some l /\ x = o - np_mean l.

(** The floored standard deviation of the scores [l]: 1 when there are
    fewer than two scores or their deviation is 0. *)
Definition floored_std (l : list R) : R := floored (std_or_one l).

(** [x] is [(ll - mean(lls)) / std(lls)] with the floored deviation. *)
Definition ll_zscore (ll : option R) (lls : option (list R)) (x : R)
  : Prop :=
  exists o l, ll = Some o /\ lls = Some l /\
              x = (o - np_mean l) / floored_std l.




(** ** Concrete runs, used to exercise the statements *)

(** A querier that scores a text by its number of characters and times
    out on the text ["timeout"]. *)
Definition demo_get_ll (text : string) : exn + R :=
  if text =? "timeout" then inl (QueryError "timed out")
  else inr (INR (String.length text)).

Fixpoint demo_get_lls (texts : list string) : exn + list R :=
  match texts with
  | [] => inr []
  | t :: rest =>
      match demo_get_ll t, demo_get_lls rest with
      | inr x, inr xs => inr (x :: xs)
      | inl e, _ => inl e
      | _, inl e => inl e
      end
  end.

Definition demo_metrics (real_preds sample_preds : list R)
  : list R * list R * R := ([], [], 0).

Definition demo_format (x : R) : string := "0.15".

Definition demo_hyperparameters : Hyperparameters :=
  mkHyperparameters 2 2 (15 / 100) 1.

(** Two records: perturbations of distinct lengths in the first, of one
    length in the second. *)
Definition demo_results : list Res :=
  [ partial_record "ab" "abc" [""; "ab"] ["a"; "abc"];
    partial_record "abcd" "a" ["xy"; "zw"] ["p"; "q"] ].

Definition demo_aggregated : list Res :=
  snd (query_lls demo_get_ll demo_get_lls demo_results).

(** One record whose perturbations all score the same. *)
Definition demo_flat : list Res :=
  [ partial_record "abcd" "a" ["xy"; "zw"] ["p"; "q"] ].

Definition demo_flat_aggregated : list Res :=
  snd (query_lls demo_get_ll demo_get_lls demo_flat).

(** One record whose perturbations of the original passage score 0 and 2. *)
Definition demo_spread : list Res :=
  [ partial_record "ab" "abc" [""; "ab"] ["a"; "abc"] ].

Definition demo_spread_aggregated : list Res :=
  snd (query_lls demo_get_ll demo_get_lls demo_spread).

(** The first record's original passage makes the querier time out; the
    second record is the one of [demo_flat]. *)
Definition demo_failing : list Res :=
  [ partial_record "timeout" "abc" ["a"; "b"] ["c"; "d"];
    partial_record "abcd" "a" ["xy"; "zw"] ["p"; "q"] ].

(** An infill model that never produces a fill, on a masking policy that
    masks one span. *)
Definition demo_mask_spans (passage : string) (span_length : nat)
  (pct_masked : R) (variant round : nat) : string * nat :=
  ("<extra_id_0>", 1%nat).

Definition demo_infill (masked : string) : list string := [].

Definition demo_substitute (masked : string) (fills : list string) : string :=
  masked.

(** ** The caller and further predicates *)

(** The four keys [query_lls] reads are the same in [r] and [r']. *)
Definition same_inputs (r r' : Res) : Prop :=
  original r' = original r /\ sampled r' = sampled r /\
  perturbed_original r' = perturbed_original r /\
  perturbed_sampled r' = perturbed_sampled r.

(** The keys the difference branch reads, and those the z-score branch
    reads. *)
Definition difference_keys : list string :=
  ["original_ll"; "perturbed_original_ll"; "sampled_ll";
   "perturbed_sampled_ll"].

Definition zscore_keys : list string :=
  ["perturbed_original_ll_std"; "perturbed_sampled_ll_std"; "original_ll";
   "perturbed_original_ll"; "sampled_ll"; "perturbed_sampled_ll"].

(** One of the keys of the difference branch is absent from [r]. *)
Definition lacks_difference_key (r : Res) : Prop :=
  original_ll r = None \/ perturbed_original_ll r = None \/
  sampled_ll r = None \/ perturbed_sampled_ll r = None.

(** One of the keys of the z-score branch is absent from [r]. *)
Definition lacks_zscore_key (r : Res) : Prop :=
  lacks_difference_key r \/
  perturbed_original_ll_std r = None \/ perturbed_sampled_ll_std r = None.

(** The outcome [o], whose [raw_results] is the list [results] itself,
    read when the list holds [rs]. *)
Definition with_raw_results (rs : list Res) (o : Outcome) : Outcome :=
  mkOutcome (name o) (predictions o) (info o) rs (metrics o) (pr_metrics o)
    (loss o).

(** The line of the command line that runs the experiments:
    [[run_perturbation_experiment(results, criterion, hyperparameters,
    args.dataset) for criterion in ['z', 'd']]], on one list [results]. *)
Definition main_experiments
  (get_roc_metrics get_precision_recall_metrics
     : list R -> list R -> list R * list R * R)
  (format_float : R -> string) (results : list Res)
  (hyperparameters : Hyperparameters) (dataset : string)
  : (exn + list Outcome) * list Res :=
  match run_perturbation_experiment get_roc_metrics
          get_precision_recall_metrics format_float results "z"
          hyperparameters dataset with
  | (inl e, results1) => (inl e, results1)
  | (inr outcome_z, results1) =>
      match run_perturbation_experiment get_roc_metrics
              get_precision_recall_metrics format_float results1 "d"
              hyperparameters dataset with
      | (inl e, results2) => (inl e, results2)
      | (inr outcome_d, results2) =>
          (inr [with_raw_results results2 outcome_z; outcome_d], results2)
      end
  end.



(** ** Text processing ([data_processing.py]) *)

(** A Python [str] is a sequence of Unicode code points. *)
Definition text : Type := list N.

(** The text of a literal made of ASCII characters. *)
Definition T (s : string) : text :=
  map N_of_ascii (list_ascii_of_string s).

(** [c.isspace()]: the code points [str.strip()] removes. *)
Definition isspace (c : N) : bool :=
  (((9 <=? c) && (c <=? 13)) || ((28 <=? c) && (c <=? 32)) ||
   (c =? 133) || (c =? 160) || (c =? 5760) ||
   ((8192 <=? c) && (c <=? 8202)) || (c =? 8232) || (c =? 8233) ||
   (c =? 8239) || (c =? 8287) || (c =? 12288))%N.

(** [s.lstrip()], [s.rstrip()] and [s.strip()]. *)
Fixpoint lstrip (s : text) : text :=
  match s with
  | [] => []
  | c :: rest => if isspace c then lstrip rest else s
  end.

Definition rstrip (s : text) : text := rev (lstrip (rev s)).

Definition strip (s : text) : text := lstrip (rstrip s).

(** [s.startswith(old)]. *)
Fixpoint starts_with (old s : text) : bool :=
  match old, s with
  | [], _ => true
  | _ :: _, [] => false
  | a :: old', b :: s' => (a =? b)%N && starts_with old' s'
  end.

(** The scan of [s.replace(old, new)] for a non-empty [old]: the
    occurrences of [old] are found from left to right and do not overlap;
    [skip] counts the characters of an occurrence still to pass over. *)
Fixpoint replace_from (old new s : text) (skip : nat) : text :=
  match s with
  | [] => []
  | c :: rest =>
      match skip with
      | S k => replace_from old new rest k
      | O =>
          if starts_with old s
          then new ++ replace_from old new rest (List.length old - 1)
          else c :: replace_from old new rest 0
      end
  end.

(** [s.replace(old, new)]; an empty [old] matches before every character
    and at the end. *)
Definition replace (old new s : text) : text :=
  match old with
  | [] => new ++ flat_map (fun c => c :: new) s
  | _ :: _ => replace_from old new s 0
  end.

(** [old in s]. *)
Fixpoint occurs (old s : text) : bool :=
  starts_with old s ||
  match s with
  | [] => false
  | _ :: rest => occurs old rest
  end.

(** [sep.join(parts)]. *)
Fixpoint join (sep : text) (parts : list text) : text :=
  match parts with
  | [] => []
  | [p] => p
  | p :: rest => p ++ sep ++ join sep rest
  end.

(** The loop of [concat_cols]: [string += row[col] + ' '].  A row maps a
    column label to its cell, a text; an absent label raises [KeyError]. *)
Fixpoint concat_cols_loop (row : string -> option text) (cols : list string)
  (acc : text) : exn + text :=
  match cols with
  | [] => inr acc
  | col :: rest =>
      match row col with
      | None => inl (KeyError col)
      | Some cell => concat_cols_loop row rest (acc ++ cell ++ T " ")
      end
  end.

Definition concat_cols (row : string -> option text) (cols : list string)
  : exn + text :=
  match concat_cols_loop row cols [] with
  | inl e => inl e
  | inr acc => inr (strip acc)
  end.

Definition process_prompt (prompt : text) : text :=
  replace (T "[ OT ]") [] (replace (T "[ WP ]") [] prompt).

(** The pairs [(old, new)] of the chain of [replace] calls of
    [process_spaces], in the order of the calls. *)
Definition space_rules : list (text * text) :=
  [ (T " ,", T ",");
    (T " .", T ".");
    (T " ?", T "?");
    (T " !", T "!");
    (T " ;", T ";");
    (T " '", T "'");
    (T " " ++ [8217%N] ++ T " ", T "'");
    (T " :", T ":");
    (T "<newline>", [10%N]);
    (T "`` ", [34%N]);
    (T " ''", [34%N]);
    (T "''", [34%N]);
    (T ".. ", T "... ");
    (T " )", T ")");
    (T "( ", T "(");
    (T " n't", T "n't");
    (T " i ", T " I ");
    (T " i'", T " I'");
    (T "\'", T "'");
    ([10%N] ++ T " ", [10%N]) ].

Definition process_spaces (story : text) : text :=
  strip (fold_left (fun s rule => replace (fst rule) (snd rule) s)
           space_rules story).

(** [row[col].replace(strip_msg, '')], the function [strip_text] applies
    to a cell. *)
Definition strip_cell (strip_msg cell : text) : text :=
  replace strip_msg [] cell.

(** ** Predicates of the further statements *)

(** [z] is [d] over a strictly positive number. *)
Definition positive_multiple (z d : R) : Prop :=
  exists sd, 0 < sd /\ d = z * sd.



(** The cells of the columns [cols], when the row has them all. *)
Fixpoint cells_of (row : string -> option text) (cols : list string)
  : option (list text) :=
  match cols with
  | [] => Some []
  | col :: rest =>
      match row col, cells_of row rest with
      | Some cell, Some cells => Some (cell :: cells)
      | _, _ => None
      end
  end.

(** A row with a title and a body. *)
Definition demo_row (col : string) : option text :=
  if col =? "title" then Some (T " A title")
  else if col =? "body" then Some (T "and a body ")
  else None.

(** ** Tactics *)

Ltac unfold_body :=
  unfold predict_body, floor_std, bind, lookup, modify, ret.

Ltac split_options H :=
  repeat match type of H with
         | context [match ?x with Some _ => _ | None => _ end] =>
             destruct x eqn:?; simpl in H
         | context [if Req_dec_T ?a ?b then _ else _] =>
             destruct (Req_dec_T a b); simpl in H
         end.

(** ** The loop *)

Lemma for_each_app {S A} (body : A -> M S A) (xs ys : list S) :
  forall acc,
    for_each body acc (xs ++ ys) =
    match for_each body acc xs with
    | (inl e, xs') => (inl e, xs' ++ ys)
    | (inr acc', xs') =>
        let '(r, ys') := for_each body acc' ys in (r, xs' ++ ys')
    end.
Proof.
  induction xs as [|x xs IH]; intros acc; simpl.
  - destruct (for_each body acc ys); reflexivity.
  - destruct (body acc x) as [[e|acc'] x']; [reflexivity|].
    rewrite IH. destruct (for_each body acc' xs) as [[e|acc''] xs'].
    + reflexivity.
    + destruct (for_each body acc'' ys); reflexivity.
Qed.

(** A relation the body establishes between a record and what it leaves
    holds between the list and what the loop leaves, the loop having
    returned or raised. *)
Lemma for_each_frame {S A} (body : A -> M S A) (P : S -> S -> Prop) :
  (forall x, P x x) ->
  (forall acc x res x', body acc x = (res, x') -> P x x') ->
  forall xs acc res xs',
    for_each body acc xs = (res, xs') -> Forall2 P xs xs'.
Proof.
  intros Hrefl Hbody. induction xs as [|x xs IH]; simpl; intros acc res xs' H.
  - inversion H; constructor.
  - destruct (body acc x) as [[e|acc'] x'] eqn:Hb.
    + inversion H; subst. constructor; [eauto|].
      clear - Hrefl. induction xs; constructor; auto.
    + destruct (for_each body acc' xs) as [r rest'] eqn:Hl.
      inversion H; subst. constructor; eauto.
Qed.

(** After a normal return every record has been through the body. *)
Lemma for_each_returns {S A} (body : A -> M S A) :
  forall xs acc acc' xs',
    for_each body acc xs = (inr acc', xs') ->
    Forall2 (fun x x' => exists a a', body a x = (inr a', x')) xs xs'.
Proof.
  induction xs as [|x xs IH]; simpl; intros acc acc' xs' H.
  - inversion H; constructor.
  - destruct (body acc x) as [[e|a1] x'] eqn:Hb; [discriminate|].
    destruct (for_each body a1 xs) as [r rest'] eqn:Hl.
    inversion H; subst. constructor; eauto.
Qed.

(** Running the loop again on what it left gives the same result and
    changes nothing, when that holds of the body. *)
Lemma for_each_again {S A} (body : A -> M S A) :
  (forall acc x res x', body acc x = (res, x') -> body acc x' = (res, x')) ->
  forall xs acc res xs',
    for_each body acc xs = (res, xs') -> for_each body acc xs' = (res, xs').
Proof.
  intros Hbody. induction xs as [|x xs IH]; simpl; intros acc res xs' H.
  - inversion H; reflexivity.
  - destruct (body acc x) as [[e|acc'] x'] eqn:Hb.
    + inversion H; subst. simpl. rewrite (Hbody _ _ _ _ Hb). reflexivity.
    + destruct (for_each body acc' xs) as [r rest'] eqn:Hl.
      inversion H; subst. simpl. rewrite (Hbody _ _ _ _ Hb).
      rewrite (IH _ _ _ Hl). reflexivity.
Qed.

(** ** Facts about the NumPy reductions *)

Lemma sum_all_equal (l : list R) (c : R) :
  (forall x, In x l -> x = c) -> sum l = INR (List.length l) * c.
Proof.
  induction l as [|x l IH]; intros H.
  - simpl. lra.
  - change (sum (x :: l)) with (x + sum l).
    change (List.length (x :: l)) with (S (List.length l)).
    rewrite S_INR, IH by (intros y Hy; apply H; right; exact Hy).
    rewrite (H x) by (left; reflexivity). lra.
Qed.

Lemma sum_map_zero {A} (f : A -> R) (l : list A) :
  (forall x, In x l -> f x = 0) -> sum (map f l) = 0.
Proof.
  induction l as [|x l IH]; intros H; simpl.
  - reflexivity.
  - rewrite (H x) by (left; reflexivity).
    rewrite IH by (intros y Hy; apply H; right; exact Hy). lra.
Qed.

Lemma sum_map_ext {A} (f g : A -> R) (l : list A) :
  (forall x, f x = g x) -> sum (map f l) = sum (map g l).
Proof.
  intros H. induction l as [|x l IH]; simpl; [reflexivity|].
  rewrite H, IH. reflexivity.
Qed.

Lemma INR_length_pos {A} (l : list A) : l <> [] -> 0 < INR (List.length l).
Proof.
  destruct l as [|x l]; [congruence|]. intros _.
  change (List.length (x :: l)) with (S (List.length l)).
  rewrite S_INR. pose proof (pos_INR (List.length l)). lra.
Qed.

Lemma np_mean_all_equal (l : list R) (c : R) :
  l <> [] -> (forall x, In x l -> x = c) -> np_mean l = c.
Proof.
  intros Hne H. unfold np_mean. rewrite (sum_all_equal l c H).
  pose proof (INR_length_pos l Hne). field. lra.
Qed.

(** NumPy's standard deviation is the population standard deviation. *)
Lemma np_std_population (l : list R) : np_std l = population_std l.
Proof.
  unfold np_std, population_std, sum_sq_dev, np_mean at 1.
  rewrite length_map.
  rewrite (sum_map_ext (fun x => Rabs (x - np_mean l) ^ 2)
             (fun x => (x - np_mean l) ^ 2)); [reflexivity|].
  intros x. apply pow2_abs.
Qed.

Lemma np_std_identical (l : list R) : identical l -> np_std l = 0.
Proof.
  intros [c H]. destruct l as [|x l].
  - unfold np_std, np_mean. simpl. unfold Rdiv. rewrite Rmult_0_l.
    apply sqrt_0.
  - assert (Hm : np_mean (x :: l) = c)
      by (apply np_mean_all_equal; [discriminate | exact H]).
    unfold np_std. rewrite Hm. unfold np_mean at 1.
    rewrite sum_map_zero.
    + unfold Rdiv. rewrite Rmult_0_l. apply sqrt_0.
    + intros y Hy. rewrite (H y Hy). rewrite Rminus_diag, Rabs_R0. simpl. lra.
Qed.

Lemma floored_nonzero (sd : R) : floored sd <> 0.
Proof. unfold floored. destruct (Req_dec_T sd 0); lra. Qed.

Lemma floored_of_nonzero (sd : R) : sd <> 0 -> floored sd = sd.
Proof. unfold floored. destruct (Req_dec_T sd 0); [contradiction|reflexivity]. Qed.

Lemma floored_zero : floored 0 = 1.
Proof. unfold floored. destruct (Req_dec_T 0 0); [reflexivity|contradiction]. Qed.



Lemma std_or_one_long (l : list R) :
  (2 <= List.length l)%nat -> std_or_one l = np_std l.
Proof.
  intros H. unfold std_or_one.
  destruct (Nat.ltb_spec 1 (List.length l)); [reflexivity|lia].
Qed.

(** ** Facts about the body of [query_lls] *)

Section AggregatorFacts.

Variable get_ll : string -> exn + R.
Variable get_lls : list string -> exn + list R.


Lemma query_lls_body_inv (r r' : Res) (u : unit) :
  query_lls_body get_ll get_lls r = (inr u, r') ->
  aggregated get_ll get_lls r r'.
Proof.
  unfold query_lls_body, bind, gets, call, modify, aggregated. simpl.
  destruct (get_lls (perturbed_sampled r)) as [e|ps]; [discriminate|].
  destruct (get_lls (perturbed_original r)) as [e|po]; [discriminate|].
  destruct (get_ll (original r)) as [e|o]; [discriminate|]. simpl.
  destruct (get_ll (sampled r)) as [e|s]; [discriminate|]. simpl.
  intros H. inversion H. exists o, s, po, ps. repeat split; reflexivity.
Qed.

(** When a call to the querier raises, the body raises; the record gets
    no standard deviation, no mean and no list of scores. *)
Lemma query_lls_body_raises (r : Res) :
  querier_fails get_ll get_lls r ->
  exists e r',
    query_lls_body get_ll get_lls r = (inl e, r') /\
    (r' = r \/ exists o, r' = set_original_ll o r).
Proof.
  unfold querier_fails, query_lls_body, bind, gets, call, modify. simpl.
  intros H.
  destruct (get_lls (perturbed_sampled r)) as [e1|ps]; [eauto|].
  destruct (get_lls (perturbed_original r)) as [e2|po]; [eauto|].
  destruct (get_ll (original r)) as [e3|o]; [eauto|]. simpl.
  destruct (get_ll (sampled r)) as [e4|s]; [eauto 6|].
  exfalso. destruct H as [[e H]|[[e H]|[[e H]|[e H]]]]; discriminate.
Qed.

Lemma query_lls_returns (results results' : list Res) (u : unit) :
  query_lls get_ll get_lls results = (inr u, results') ->
  Forall2 (aggregated get_ll get_lls) results results'.
Proof.
  intros H. apply for_each_returns in H.
  eapply Forall2_impl; [|exact H]. simpl.
  intros r r' [a [a' Hb]]. eapply query_lls_body_inv; exact Hb.
Qed.


End AggregatorFacts.

(** ** Facts about the body of the detector's loop *)


Lemma predict_body_not_z (c : string) (acc : Predictions) (r r' : Res) res :
  c <> "z" -> predict_body c acc r = (res, r') -> r' = r.
Proof.
  intros Hz. unfold_body. apply String.eqb_neq in Hz. rewrite Hz.
  destruct (c =? "d"); intros H.
  - split_options H; inversion H; reflexivity.
  - inversion H; reflexivity.
Qed.

Lemma same_but_floored_std_refl (r : Res) : same_but_floored_std r r.
Proof. unfold same_but_floored_std, std_guarded. repeat split; auto. Qed.

Lemma predict_body_frame (c : string) (acc : Predictions) (r r' : Res) res :
  predict_body c acc r = (res, r') -> same_but_floored_std r r'.
Proof.
  destruct (string_dec c "z") as [->|Hz].
  - unfold_body. simpl. destruct r; simpl. intros H.
    split_options H; inversion H; subst;
      unfold same_but_floored_std, std_guarded; simpl;
      repeat split; auto.
  - intros H. apply predict_body_not_z in H; [subst|exact Hz].
    apply same_but_floored_std_refl.
Qed.

Lemma predict_body_again (c : string) (acc : Predictions) (r r' : Res) res :
  predict_body c acc r = (res, r') -> predict_body c acc r' = (res, r').
Proof.
  destruct (string_dec c "z") as [->|Hz].
  - unfold_body. simpl. destruct r; simpl. intros H.
    split_options H; inversion H; subst; simpl;
      repeat match goal with
             | |- context [Req_dec_T ?a ?b] =>
                 destruct (Req_dec_T a b); try lra; try contradiction; simpl
             end; reflexivity.
  - intros H. pose proof (predict_body_not_z _ _ _ _ _ Hz H). subst.
    exact H.
Qed.

Lemma predict_body_d_ok (acc : Predictions) (r : Res) (x y : R) :
  difference_real r x -> difference_samples r y ->
  predict_body "d" acc r = (inr (append_samples y (append_real x acc)), r).
Proof.
  intros (o & po & Ho & Hpo & ->) (s & ps & Hs & Hps & ->).
  unfold_body. simpl. rewrite Ho, Hpo, Hs, Hps. reflexivity.
Qed.

Lemma predict_body_z_ok (acc : Predictions) (r : Res) (x y : R) :
  zscore_real r x -> zscore_samples r y ->
  predict_body "z" acc r =
  (inr (append_samples y (append_real x acc)), floor_record r).
Proof.
  intros (o & po & sdo & Ho & Hpo & Hsdo & ->)
         (s & ps & sds & Hs & Hps & Hsds & ->).
  unfold_body. unfold floor_record, floored. destruct r; simpl in *. subst.
  simpl.
  destruct (Req_dec_T sdo 0); simpl; destruct (Req_dec_T sds 0); simpl;
    reflexivity.
Qed.

Lemma predict_body_d_inv (acc acc' : Predictions) (r r' : Res) :
  predict_body "d" acc r = (inr acc', r') ->
  exists x y, difference_real r x /\ difference_samples r y /\
              acc' = append_samples y (append_real x acc) /\ r' = r.
Proof.
  unfold_body. simpl. intros H. split_options H; inversion H; subst.
  eexists _, _. unfold difference_real, difference_samples.
  repeat split; eauto 7.
Qed.

Lemma predict_body_z_inv (acc acc' : Predictions) (r r' : Res) :
  predict_body "z" acc r = (inr acc', r') ->
  exists x y, zscore_real r x /\ zscore_samples r y /\
              acc' = append_samples y (append_real x acc) /\
              r' = floor_record r.
Proof.
  intros H.
  assert (Hpop : exists x y, zscore_real r x /\ zscore_samples r y).
  { revert H. unfold_body. simpl. destruct r; simpl. intros H.
    unfold zscore_real, zscore_samples; simpl.
    split_options H; inversion H; subst; eexists _, _; split; eauto 8. }
  destruct Hpop as (x & y & Hx & Hy). exists x, y.
  rewrite (predict_body_z_ok acc r x y Hx Hy) in H. inversion H.
  repeat split; assumption.
Qed.

(** ** Facts about the detector's loop *)


Lemma for_each_d_ok (results : list Res) :
  forall xs ys acc,
    Forall2 difference_real results xs ->
    Forall2 difference_samples results ys ->
    for_each (predict_body "d") acc results =
    (inr (mkPredictions (real acc ++ xs) (samples acc ++ ys)), results).
Proof.
  induction results as [|r rs IH]; intros xs ys acc Hx Hy;
    inversion Hx; inversion Hy; subst.
  - simpl. rewrite !app_nil_r. destruct acc; reflexivity.
  - cbn [for_each]. rewrite (predict_body_d_ok acc r y y0) by assumption.
    rewrite (IH l' l'0) by assumption. simpl. rewrite <- !app_assoc.
    reflexivity.
Qed.

Lemma for_each_z_ok (results : list Res) :
  forall xs ys acc,
    Forall2 zscore_real results xs ->
    Forall2 zscore_samples results ys ->
    for_each (predict_body "z") acc results =
    (inr (mkPredictions (real acc ++ xs) (samples acc ++ ys)),
     map floor_record results).
Proof.
  induction results as [|r rs IH]; intros xs ys acc Hx Hy;
    inversion Hx; inversion Hy; subst.
  - simpl. rewrite !app_nil_r. destruct acc; reflexivity.
  - cbn [for_each]. rewrite (predict_body_z_ok acc r y y0) by assumption.
    rewrite (IH l' l'0) by assumption. simpl. rewrite <- !app_assoc.
    reflexivity.
Qed.

Lemma for_each_d_inv (results : list Res) :
  forall acc acc' results',
    for_each (predict_body "d") acc results = (inr acc', results') ->
    exists xs ys,
      Forall2 difference_real results xs /\
      Forall2 difference_samples results ys /\
      acc' = mkPredictions (real acc ++ xs) (samples acc ++ ys) /\
      results' = results.
Proof.
  induction results as [|r rs IH]; intros acc acc' results' H.
  - simpl in H. inversion H; subst. exists [], []. rewrite !app_nil_r.
    destruct acc'; repeat split; constructor.
  - cbn [for_each] in H.
    destruct (predict_body "d" acc r) as [[e|a1] r1] eqn:Hb; [discriminate|].
    destruct (for_each (predict_body "d") a1 rs) as [res rs'] eqn:Hl.
    inversion H; subst.
    apply predict_body_d_inv in Hb. destruct Hb as (x & y & Hx & Hy & -> & ->).
    apply IH in Hl. destruct Hl as (xs & ys & Hxs & Hys & -> & ->).
    exists (x :: xs), (y :: ys). simpl. rewrite <- !app_assoc.
    repeat split; try constructor; assumption.
Qed.

Lemma for_each_z_inv (results : list Res) :
  forall acc acc' results',
    for_each (predict_body "z") acc results = (inr acc', results') ->
    exists xs ys,
      Forall2 zscore_real results xs /\
      Forall2 zscore_samples results ys /\
      acc' = mkPredictions (real acc ++ xs) (samples acc ++ ys) /\
      results' = map floor_record results.
Proof.
  induction results as [|r rs IH]; intros acc acc' results' H.
  - simpl in H. inversion H; subst. exists [], []. rewrite !app_nil_r.
    destruct acc'; repeat split; constructor.
  - cbn [for_each] in H.
    destruct (predict_body "z" acc r) as [[e|a1] r1] eqn:Hb; [discriminate|].
    destruct (for_each (predict_body "z") a1 rs) as [res rs'] eqn:Hl.
    inversion H; subst.
    apply predict_body_z_inv in Hb. destruct Hb as (x & y & Hx & Hy & -> & ->).
    apply IH in Hl. destruct Hl as (xs & ys & Hxs & Hys & -> & ->).
    exists (x :: xs), (y :: ys). simpl. rewrite <- !app_assoc.
    repeat split; try constructor; assumption.
Qed.

(** What [query_lls] stores, read back by the detector. *)
Lemma populated_difference_real (r : Res) (o s : R) (po ps : list R) :
  difference_real (populated_by r o s po ps) (o - np_mean po).
Proof. exists o, (np_mean po). repeat split. Qed.

Lemma populated_difference_samples (r : Res) (o s : R) (po ps : list R) :
  difference_samples (populated_by r o s po ps) (s - np_mean ps).
Proof. exists s, (np_mean ps). repeat split. Qed.

Lemma populated_zscore_real (r : Res) (o s : R) (po ps : list R) :
  zscore_real (populated_by r o s po ps)
    ((o - np_mean po) / floored (std_or_one po)).
Proof. exists o, (np_mean po), (std_or_one po). repeat split. Qed.

Lemma populated_zscore_samples (r : Res) (o s : R) (po ps : list R) :
  zscore_samples (populated_by r o s po ps)
    ((s - np_mean ps) / floored (std_or_one ps)).
Proof. exists s, (np_mean ps), (std_or_one ps). repeat split. Qed.


Lemma Forall2_length_eq {A B} (P : A -> B -> Prop) (l : list A) (l' : list B) :
  Forall2 P l l' -> List.length l' = List.length l.
Proof. induction 1; simpl; congruence. Qed.

Lemma run_perturbation_experiment_store roc pr fmt results criterion hp
  dataset :
  snd (run_perturbation_experiment roc pr fmt results criterion hp dataset)
  = snd (predict criterion results).
Proof.
  unfold run_perturbation_experiment.
  destruct (predict criterion results) as [[e|preds] results']; reflexivity.
Qed.

Lemma predict_frame (criterion : string) (results : list Res) :
  Forall2 same_but_floored_std results (snd (predict criterion results)).
Proof.
  unfold predict.
  destruct (for_each (predict_body criterion) (mkPredictions [] []) results)
    as [res results'] eqn:H. simpl.
  eapply for_each_frame; [| |exact H].
  - apply same_but_floored_std_refl.
  - intros acc x r x' Hb. eapply predict_body_frame; exact Hb.
Qed.

Lemma predict_not_z_store (criterion : string) (results : list Res) :
  criterion <> "z" -> snd (predict criterion results) = results.
Proof.
  intros Hz. unfold predict.
  destruct (for_each (predict_body criterion) (mkPredictions [] []) results)
    as [res results'] eqn:H. simpl.
  assert (HF : Forall2 eq results results').
  { eapply for_each_frame; [| |exact H].
    - reflexivity.
    - intros acc x r x' Hb. symmetry.
      eapply predict_body_not_z; [exact Hz|exact Hb]. }
  clear - HF. induction HF; congruence.
Qed.

(** ** The scores of the two criteria *)

Lemma floored_std_cases (l : list R) :
  floored_std l =
  if (List.length l <? 2)%nat then 1
  else if Req_dec_T (np_std l) 0 then 1 else np_std l.
Proof.
  unfold floored_std, std_or_one, floored.
  destruct (Nat.ltb_spec 1 (List.length l)), (Nat.ltb_spec (List.length l) 2);
    try lia; try reflexivity.
  destruct (Req_dec_T 1 0); reflexivity.
Qed.

Lemma aggregated_scores get_ll get_lls (results0 results : list Res) :
  Forall2 (aggregated get_ll get_lls) results0 results ->
  exists xs ys zs ws,
    Forall2 difference_real results xs /\
    Forall2 difference_samples results ys /\
    Forall2 zscore_real results zs /\
    Forall2 zscore_samples results ws /\
    Forall2 (fun r x =>
               ll_minus_mean (original_ll r) (all_perturbed_original_ll r) x)
            results xs /\
    Forall2 (fun r y =>
               ll_minus_mean (sampled_ll r) (all_perturbed_sampled_ll r) y)
            results ys /\
    Forall2 (fun r z =>
               ll_zscore (original_ll r) (all_perturbed_original_ll r) z)
            results zs /\
    Forall2 (fun r w =>
               ll_zscore (sampled_ll r) (all_perturbed_sampled_ll r) w)
            results ws.
Proof.
  induction 1 as [|r0 r rs0 rs Hr _ IH].
  - exists [], [], [], []. repeat split; constructor.
  - destruct IH as (xs & ys & zs & ws & H1 & H2 & H3 & H4 & H5 & H6 & H7 & H8).
    destruct Hr as (o & s & po & ps & _ & _ & _ & _ & ->).
    exists ((o - np_mean po) :: xs), ((s - np_mean ps) :: ys),
      ((o - np_mean po) / floored_std po :: zs),
      ((s - np_mean ps) / floored_std ps :: ws).
    repeat split; constructor; try assumption.
    + apply populated_difference_real.
    + apply populated_difference_samples.
    + apply populated_zscore_real.
    + apply populated_zscore_samples.
    + exists o, po. repeat split.
    + exists s, ps. repeat split.
    + exists o, po. repeat split.
    + exists s, ps. repeat split.
Qed.

(** C3: for records filled by [query_lls], the experiment under criterion
    ['d'] returns an outcome whose 'real' population holds, record by
    record, [original_ll - mean(all_perturbed_original_ll)] and whose
    'samples' population holds [sampled_ll - mean(all_perturbed_sampled_ll)];
    the records are left as they were. *)
Theorem difference_criterion_scores :
  forall get_ll get_lls roc pr fmt results0 results hyperparameters dataset,
    query_lls get_ll get_lls results0 = (inr tt, results) ->
    exists outcome,
      run_perturbation_experiment roc pr fmt results "d"
        hyperparameters dataset = (inr outcome, results) /\
      Forall2 (fun r x =>
                 ll_minus_mean (original_ll r) (all_perturbed_original_ll r) x)
              results (real (predictions outcome)) /\
      Forall2 (fun r y =>
                 ll_minus_mean (sampled_ll r) (all_perturbed_sampled_ll r) y)
              results (samples (predictions outcome)).
Proof.
  intros get_ll get_lls roc pr fmt results0 results hp dataset H.
  apply query_lls_returns in H. apply aggregated_scores in H.
  destruct H as (xs & ys & _ & _ & Hx & Hy & _ & _ & Hxm & Hym & _ & _).
  unfold run_perturbation_experiment, predict.
  rewrite (for_each_d_ok results xs ys _ Hx Hy). simpl.
  eexists. split; [reflexivity|].
  unfold make_outcome. simpl.
  destruct (roc xs ys) as [[f t] a]. destruct (pr xs ys) as [[p r] a'].
  simpl. split; assumption.
Qed.

Lemma difference_criterion_scores_witness :
  exists outcome,
    run_perturbation_experiment demo_metrics demo_metrics demo_format
      demo_aggregated "d" demo_hyperparameters "xsum"
    = (inr outcome, demo_aggregated) /\
    Forall2 (fun r x =>
               ll_minus_mean (original_ll r) (all_perturbed_original_ll r) x)
            demo_aggregated (real (predictions outcome)) /\
    Forall2 (fun r y =>
               ll_minus_mean (sampled_ll r) (all_perturbed_sampled_ll r) y)
            demo_aggregated (samples (predictions outcome)).
Proof.
  apply (difference_criterion_scores demo_get_ll demo_get_lls demo_metrics
           demo_metrics demo_format demo_results demo_aggregated
           demo_hyperparameters "xsum").
  reflexivity.
Defined.

(** C2: for records filled by [query_lls], the experiment under criterion
    ['z'] returns an outcome whose 'real' and 'samples' populations hold,
    record by record, [(ll - mean(lls)) / std(lls)] with the floored
    standard deviation of the perturbation scores of the original and of
    the sampled passage; no divisor is 0, and the divisor is what the
    record stores when the function returns. *)
Theorem zscore_criterion_scores :
  forall get_ll get_lls roc pr fmt results0 results hyperparameters dataset,
    query_lls get_ll get_lls results0 = (inr tt, results) ->
    exists outcome results',
      run_perturbation_experiment roc pr fmt results "z"
        hyperparameters dataset = (inr outcome, results') /\
      Forall2 (fun r x =>
                 ll_zscore (original_ll r) (all_perturbed_original_ll r) x)
              results (real (predictions outcome)) /\
      Forall2 (fun r y =>
                 ll_zscore (sampled_ll r) (all_perturbed_sampled_ll r) y)
              results (samples (predictions outcome)) /\
      Forall (fun r' =>
                exists po ps,
                  all_perturbed_original_ll r' = Some po /\
                  all_perturbed_sampled_ll r' = Some ps /\
                  perturbed_original_ll_std r' = Some (floored_std po) /\
                  perturbed_sampled_ll_std r' = Some (floored_std ps) /\
                  floored_std po <> 0 /\ floored_std ps <> 0)
             results'.
Proof.
  intros get_ll get_lls roc pr fmt results0 results hp dataset H.
  apply query_lls_returns in H. pose proof (aggregated_scores _ _ _ _ H) as Hs.
  destruct Hs as (_ & _ & zs & ws & _ & _ & Hz & Hw & _ & _ & Hzm & Hwm).
  unfold run_perturbation_experiment, predict.
  rewrite (for_each_z_ok results zs ws _ Hz Hw). simpl.
  eexists _, _. split; [reflexivity|].
  unfold make_outcome. simpl.
  destruct (roc zs ws) as [[f t] a]. destruct (pr zs ws) as [[p r] a'].
  simpl. repeat split; try assumption.
  apply Forall_map. clear - H. induction H as [|r0 r rs0 rs Hr _ IH].
  - constructor.
  - constructor; [|exact IH].
    destruct Hr as (o & s & po & ps & _ & _ & _ & _ & ->).
    exists po, ps. unfold floored_std. simpl.
    repeat split; apply floored_nonzero.
Qed.

Lemma zscore_criterion_scores_witness :
  exists outcome results',
    run_perturbation_experiment demo_metrics demo_metrics demo_format
      demo_aggregated "z" demo_hyperparameters "xsum"
    = (inr outcome, results') /\
    Forall2 (fun r x =>
               ll_zscore (original_ll r) (all_perturbed_original_ll r) x)
            demo_aggregated (real (predictions outcome)) /\
    Forall2 (fun r y =>
               ll_zscore (sampled_ll r) (all_perturbed_sampled_ll r) y)
            demo_aggregated (samples (predictions outcome)) /\
    Forall (fun r' =>
              exists po ps,
                all_perturbed_original_ll r' = Some po /\
                all_perturbed_sampled_ll r' = Some ps /\
                perturbed_original_ll_std r' = Some (floored_std po) /\
                perturbed_sampled_ll_std r' = Some (floored_std ps) /\
                floored_std po <> 0 /\ floored_std ps <> 0)
           results'.
Proof.
  apply (zscore_criterion_scores demo_get_ll demo_get_lls demo_metrics
           demo_metrics demo_format demo_results demo_aggregated
           demo_hyperparameters "xsum").
  reflexivity.
Defined.

(** ** The stored standard deviation *)





Lemma demo_flat_aggregated_eq :
  demo_flat_aggregated =
  [ populated_by (partial_record "abcd" "a" ["xy"; "zw"] ["p"; "q"])
      (INR 4) (INR 1) [INR 2; INR 2] [INR 1; INR 1] ].
Proof. reflexivity. Qed.

Lemma std_or_one_pair (c : R) : std_or_one [c; c] = 0.
Proof.
  rewrite std_or_one_long by (simpl; lia).
  apply np_std_identical. exists c.
  intros x [<-|[<-|[]]]; reflexivity.
Qed.



(** C9 *)

Lemma sum_sq_dev_nonneg (l : list R) : 0 <= sum_sq_dev l.
Proof.
  unfold sum_sq_dev. generalize (np_mean l). intros m.
  induction l as [|x l IH].
  - simpl. lra.
  - change (0 <= (x - m) ^ 2 + sum (map (fun y => (y - m) ^ 2) l)).
    pose proof (pow2_ge_0 (x - m)). lra.
Qed.

(** The two estimators are computed from the same sum of squares and
    differ in the denominator. *)
Lemma sample_and_population_std (l : list R) :
  (2 <= List.length l)%nat ->
  population_std l ^ 2 * INR (List.length l) = sum_sq_dev l /\
  sample_std l ^ 2 * (INR (List.length l) - 1) = sum_sq_dev l.
Proof.
  intros H. pose proof (sum_sq_dev_nonneg l) as Hs.
  assert (Hn : 2 <= INR (List.length l)).
  { change 2 with (INR 2). apply le_INR. exact H. }
  unfold population_std, sample_std. split.
  - rewrite <- Rsqr_pow2. rewrite Rsqr_sqrt.
    + field. lra.
    + apply Rmult_le_pos; [exact Hs|].
      apply Rlt_le, Rinv_0_lt_compat. lra.
  - rewrite <- Rsqr_pow2. rewrite Rsqr_sqrt.
    + field. lra.
    + apply Rmult_le_pos; [exact Hs|].
      apply Rlt_le, Rinv_0_lt_compat. lra.
Qed.

(** C9, as the code has it: for two or more perturbation scores the stored
    standard deviation is NumPy's default, the population standard
    deviation, with denominator [n]. *)
Theorem stored_std_is_population_std :
  forall get_ll get_lls results0 results,
    query_lls get_ll get_lls results0 = (inr tt, results) ->
    Forall (fun r =>
              exists po ps,
                all_perturbed_original_ll r = Some po /\
                all_perturbed_sampled_ll r = Some ps /\
                ((2 <= List.length po)%nat ->
                 perturbed_original_ll_std r = Some (population_std po) /\
                 population_std po ^ 2 * INR (List.length po)
                   = sum_sq_dev po) /\
                ((2 <= List.length ps)%nat ->
                 perturbed_sampled_ll_std r = Some (population_std ps) /\
                 population_std ps ^ 2 * INR (List.length ps)
                   = sum_sq_dev ps))
           results.
Proof.
  intros get_ll get_lls results0 results H.
  apply query_lls_returns in H.
  induction H as [|r0 r rs0 rs Hr _ IH]; constructor; [|exact IH].
  destruct Hr as (o & s & po & ps & _ & _ & _ & _ & ->).
  exists po, ps. simpl. repeat split.
  - rewrite std_or_one_long by assumption. rewrite np_std_population.
    reflexivity.
  - apply sample_and_population_std; assumption.
  - rewrite std_or_one_long by assumption. rewrite np_std_population.
    reflexivity.
  - apply sample_and_population_std; assumption.
Qed.

Lemma stored_std_is_population_std_witness :
  Forall (fun r =>
            exists po ps,
              all_perturbed_original_ll r = Some po /\
              all_perturbed_sampled_ll r = Some ps /\
              ((2 <= List.length po)%nat ->
               perturbed_original_ll_std r = Some (population_std po) /\
               population_std po ^ 2 * INR (List.length po)
                 = sum_sq_dev po) /\
              ((2 <= List.length ps)%nat ->
               perturbed_sampled_ll_std r = Some (population_std ps) /\
               population_std ps ^ 2 * INR (List.length ps)
                 = sum_sq_dev ps))
         demo_aggregated.
Proof.
  apply (stored_std_is_population_std demo_get_ll demo_get_lls
           demo_results demo_aggregated).
  reflexivity.
Defined.

Lemma population_std_0_2 : population_std [INR 0; INR 2] = 1.
Proof.
  unfold population_std, sum_sq_dev, np_mean. simpl.
  match goal with |- sqrt ?e = _ => replace e with 1 by field end.
  apply sqrt_1.
Qed.

Lemma sample_std_0_2 : sample_std [INR 0; INR 2] = sqrt 2.
Proof.
  unfold sample_std, sum_sq_dev, np_mean. simpl.
  match goal with |- sqrt ?e = _ => replace e with 2 by field end.
  reflexivity.
Qed.

Lemma sqrt_2_neq_1 : sqrt 2 <> 1.
Proof.
  intros H. assert (H2 : sqrt 2 * sqrt 2 = 2) by (apply sqrt_sqrt; lra).
  rewrite H in H2. lra.
Qed.

(** C9, as stated, fails: for the scores 0 and 2 the stored standard
    deviation is 1, and their sample standard deviation is the square root
    of 2. *)
Lemma stored_std_is_not_sample_std :
  fst (query_lls demo_get_ll demo_get_lls demo_spread) = inr tt /\
  map all_perturbed_original_ll demo_spread_aggregated
    = [Some [INR 0; INR 2]] /\
  map perturbed_original_ll_std demo_spread_aggregated = [Some 1] /\
  sample_std [INR 0; INR 2] = sqrt 2 /\
  sample_std [INR 0; INR 2] <> 1.
Proof.
  split; [reflexivity|]. split; [reflexivity|]. split.
  - change (map perturbed_original_ll_std demo_spread_aggregated)
      with [Some (std_or_one [INR 0; INR 2])].
    rewrite std_or_one_long by (simpl; lia).
    rewrite np_std_population, population_std_0_2. reflexivity.
  - split; [exact sample_std_0_2|].
    rewrite sample_std_0_2. exact sqrt_2_neq_1.
Qed.

(** ** Failure of the querier *)

(** C4, as stated, fails: the querier times out on one text of the first
    record; [query_lls] raises that error and returns nothing, and the
    second record, which aggregates without error on its own, is left
    without scores. *)
Lemma query_error_aborts_aggregation :
  query_lls demo_get_ll demo_get_lls demo_failing
    = (inl (QueryError "timed out"), demo_failing) /\
  fst (query_lls demo_get_ll demo_get_lls (tl demo_failing)) = inr tt.
Proof. split; reflexivity. Qed.

(** C4, as the code has it: when a call to the querier raises for a record,
    [query_lls] raises the error and returns nothing.  The records before
    it have been filled; the failing record is as it was, but for its
    [original_ll] when the error came after that call; the records after
    it are untouched. *)
Theorem query_error_propagates :
  forall get_ll get_lls before r after before',
    query_lls get_ll get_lls before = (inr tt, before') ->
    querier_fails get_ll get_lls r ->
    exists e r',
      query_lls get_ll get_lls (before ++ r :: after)
        = (inl e, before' ++ r' :: after) /\
      (r' = r \/ exists o, r' = set_original_ll o r).
Proof.
  intros get_ll get_lls before r after before' Hb Hf.
  destruct (query_lls_body_raises get_ll get_lls r Hf) as (e & r' & Hr & Hr').
  exists e, r'. split; [|exact Hr'].
  unfold query_lls in *. rewrite for_each_app, Hb. simpl. rewrite Hr.
  reflexivity.
Qed.

Lemma query_error_propagates_witness :
  exists e r',
    query_lls demo_get_ll demo_get_lls
      (demo_flat ++ partial_record "timeout" "abc" ["a"; "b"] ["c"; "d"]
                 :: demo_spread)
    = (inl e, demo_flat_aggregated ++ r' :: demo_spread) /\
    (r' = partial_record "timeout" "abc" ["a"; "b"] ["c"; "d"] \/
     exists o,
       r' = set_original_ll o
              (partial_record "timeout" "abc" ["a"; "b"] ["c"; "d"])).
Proof.
  apply (query_error_propagates demo_get_ll demo_get_lls demo_flat
           (partial_record "timeout" "abc" ["a"; "b"] ["c"; "d"])
           demo_spread demo_flat_aggregated).
  - reflexivity.
  - right. right. left. exists (QueryError "timed out"). reflexivity.
Defined.

(** ** What the detector does to the records *)

(** C5, as stated, fails: the run under ['z'] replaces the stored standard
    deviation 0 of an aggregated record by 1. *)
Lemma zscore_run_changes_records :
  map perturbed_original_ll_std demo_flat_aggregated = [Some 0] /\
  map perturbed_original_ll_std
    (snd (run_perturbation_experiment demo_metrics demo_metrics demo_format
            demo_flat_aggregated "z" demo_hyperparameters "xsum"))
    = [Some 1] /\
  snd (run_perturbation_experiment demo_metrics demo_metrics demo_format
         demo_flat_aggregated "z" demo_hyperparameters "xsum")
    <> demo_flat_aggregated.
Proof.
  assert (H0 : map perturbed_original_ll_std demo_flat_aggregated = [Some 0]).
  { rewrite demo_flat_aggregated_eq. simpl map. unfold populated_by.
    cbn [perturbed_original_ll_std]. rewrite std_or_one_pair. reflexivity. }
  assert (H1 : map perturbed_original_ll_std
                 (snd (run_perturbation_experiment demo_metrics demo_metrics
                         demo_format demo_flat_aggregated "z"
                         demo_hyperparameters "xsum")) = [Some 1]).
  { rewrite demo_flat_aggregated_eq.
    unfold run_perturbation_experiment, predict.
    erewrite for_each_z_ok.
    - simpl. rewrite std_or_one_pair, floored_zero. reflexivity.
    - constructor; [apply populated_zscore_real | constructor].
    - constructor; [apply populated_zscore_samples | constructor]. }
  split; [exact H0|]. split; [exact H1|].
  intros E. rewrite E, H0 in H1. injection H1. lra.
Qed.

(** C5, as the code has it: the run leaves every record as it was, but for
    a stored standard deviation of 0, which the z-score branch replaces by
    1; under any criterion other than ['z'] no field of any record
    changes. *)
Theorem detector_frame :
  forall roc pr fmt results criterion hyperparameters dataset,
    Forall2 same_but_floored_std results
      (snd (run_perturbation_experiment roc pr fmt results criterion
              hyperparameters dataset)) /\
    (criterion <> "z" ->
     snd (run_perturbation_experiment roc pr fmt results criterion
            hyperparameters dataset) = results) /\
    (forall outcome results',
       run_perturbation_experiment roc pr fmt results "z"
         hyperparameters dataset = (inr outcome, results') ->
       results' = map floor_record results).
Proof.
  intros roc pr fmt results criterion hp dataset.
  rewrite run_perturbation_experiment_store. repeat split.
  - apply predict_frame.
  - apply predict_not_z_store.
  - unfold run_perturbation_experiment, predict. intros outcome results' H.
    destruct (for_each (predict_body "z") (mkPredictions [] []) results)
      as [[e|preds] rs] eqn:Hl; [discriminate|].
    apply for_each_z_inv in Hl. destruct Hl as (xs & ys & _ & _ & _ & ->).
    inversion H; reflexivity.
Qed.

Lemma detector_frame_witness :
  Forall2 same_but_floored_std demo_flat_aggregated
    (snd (run_perturbation_experiment demo_metrics demo_metrics demo_format
            demo_flat_aggregated "z" demo_hyperparameters "xsum")) /\
  snd (run_perturbation_experiment demo_metrics demo_metrics demo_format
         demo_flat_aggregated "d" demo_hyperparameters "xsum")
    = demo_flat_aggregated.
Proof.
  split.
  - apply (proj1 (detector_frame demo_metrics demo_metrics demo_format
                    demo_flat_aggregated "z" demo_hyperparameters "xsum")).
  - apply (proj1 (proj2 (detector_frame demo_metrics demo_metrics demo_format
                    demo_flat_aggregated "d" demo_hyperparameters "xsum"))).
    discriminate.
Defined.

(** ** The populations the detector returns *)

Lemma predictions_make_outcome roc pr fmt results criterion hp dataset preds :
  predictions (make_outcome roc pr fmt results criterion hp dataset preds)
  = preds.
Proof.
  unfold make_outcome.
  destruct (roc (real preds) (samples preds)) as [[f t] a].
  destruct (pr (real preds) (samples preds)) as [[p r] a']. reflexivity.
Qed.

Lemma run_d_ok roc pr fmt results hp dataset (xs ys : list R) :
  Forall2 difference_real results xs ->
  Forall2 difference_samples results ys ->
  exists outcome,
    run_perturbation_experiment roc pr fmt results "d" hp dataset
      = (inr outcome, results) /\
    predictions outcome = mkPredictions xs ys.
Proof.
  intros Hx Hy. unfold run_perturbation_experiment, predict.
  rewrite (for_each_d_ok results xs ys _ Hx Hy). simpl.
  eexists. split; [reflexivity|]. apply predictions_make_outcome.
Qed.

Lemma run_z_ok roc pr fmt results hp dataset (xs ys : list R) :
  Forall2 zscore_real results xs ->
  Forall2 zscore_samples results ys ->
  exists outcome,
    run_perturbation_experiment roc pr fmt results "z" hp dataset
      = (inr outcome, map floor_record results) /\
    predictions outcome = mkPredictions xs ys.
Proof.
  intros Hx Hy. unfold run_perturbation_experiment, predict.
  rewrite (for_each_z_ok results xs ys _ Hx Hy). simpl.
  eexists. split; [reflexivity|]. apply predictions_make_outcome.
Qed.








(** C8: the experiment is a function of the records, the criterion, the
    hyperparameters and the dataset name, without any random source; and
    though it writes to the records, a second run on the records as the
    first run left them returns the same outcome (or raises the same
    error) and leaves the same records. *)
Theorem run_perturbation_experiment_deterministic :
  forall roc pr fmt results criterion hyperparameters dataset,
    run_perturbation_experiment roc pr fmt
      (snd (run_perturbation_experiment roc pr fmt results criterion
              hyperparameters dataset))
      criterion hyperparameters dataset
    = run_perturbation_experiment roc pr fmt results criterion
        hyperparameters dataset.
Proof.
  intros roc pr fmt results criterion hp dataset.
  unfold run_perturbation_experiment, predict.
  destruct (for_each (predict_body criterion) (mkPredictions [] []) results)
    as [res results'] eqn:H.
  pose proof (for_each_again (predict_body criterion)
                (fun acc x r x' => predict_body_again criterion acc x x' r)
                _ _ _ _ H) as H'.
  destruct res as [e|preds]; simpl; rewrite H'; reflexivity.
Qed.





(** ** The fallback of the Perturber *)

Lemma perturb_variant_all_fail mask_spans infill substitute
  (passage : string) (span_length : nat) (pct_masked : R) (variant : nat) :
  forall rounds_left round,
    (forall k, (round <= k < round + rounds_left)%nat ->
               perturb_round mask_spans infill substitute passage
                 span_length pct_masked variant k = None) ->
    perturb_variant mask_spans infill substitute passage span_length
      pct_masked variant rounds_left round = passage.
Proof.
  induction rounds_left as [|n IH]; intros round H; simpl.
  - reflexivity.
  - rewrite (H round) by lia. apply IH. intros k Hk. apply H. lia.
Qed.

(** C6: when every one of the [n_rounds] rounds of a variant fails the
    validity check, the variant is the original passage; when that holds of
    every variant, [perturb] returns [n_variants] entries, each the
    original passage.  The functions are total: no error is raised. *)
Theorem perturb_falls_back_to_original :
  forall mask_spans infill substitute passage span_length pct_masked
         n_variants n_rounds,
    (forall variant,
       (forall round, (round < n_rounds)%nat ->
                      perturb_round mask_spans infill substitute passage
                        span_length pct_masked variant round = None) ->
       perturb_variant mask_spans infill substitute passage span_length
         pct_masked variant n_rounds 0 = passage) /\
    ((forall variant round,
        (variant < n_variants)%nat -> (round < n_rounds)%nat ->
        perturb_round mask_spans infill substitute passage span_length
          pct_masked variant round = None) ->
     perturb mask_spans infill substitute passage span_length pct_masked
       n_variants n_rounds = repeat passage n_variants).
Proof.
  intros mask_spans infill substitute passage span_length pct_masked
         n_variants n_rounds.
  assert (Hone : forall variant,
             (forall round, (round < n_rounds)%nat ->
                            perturb_round mask_spans infill substitute passage
                              span_length pct_masked variant round = None) ->
             perturb_variant mask_spans infill substitute passage span_length
               pct_masked variant n_rounds 0 = passage).
  { intros variant H. apply perturb_variant_all_fail.
    intros k Hk. apply H. lia. }
  split; [exact Hone|].
  intros H. unfold perturb.
  assert (Hgen : forall start n,
             (start + n <= n_variants)%nat ->
             map (fun variant =>
                    perturb_variant mask_spans infill substitute passage
                      span_length pct_masked variant n_rounds 0)
                 (seq start n) = repeat passage n).
  { intros start n. revert start. induction n as [|n IH]; intros start Hle.
    - reflexivity.
    - simpl. rewrite Hone by (intros round Hr; apply H; lia).
      rewrite IH by lia. reflexivity. }
  apply Hgen. lia.
Qed.

Lemma perturb_falls_back_to_original_witness :
  perturb_variant demo_mask_spans demo_infill demo_substitute
    "a human passage" 2 (15 / 100) 0 2 0 = "a human passage" /\
  perturb demo_mask_spans demo_infill demo_substitute
    "a human passage" 2 (15 / 100) 3 2 = repeat "a human passage" 3.
Proof.
  split.
  - apply (proj1 (perturb_falls_back_to_original demo_mask_spans demo_infill
                    demo_substitute "a human passage" 2 (15 / 100) 3 2)).
    intros round _. reflexivity.
  - apply (proj2 (perturb_falls_back_to_original demo_mask_spans demo_infill
                    demo_substitute "a human passage" 2 (15 / 100) 3 2)).
    intros variant round _ _. reflexivity.
Defined.

(** ** The two runs of the command line *)

(** The difference criterion reads none of the fields the z-score branch
    writes. *)
Lemma predict_body_d_after_floor (acc : Predictions) (r r' : Res) :
  same_but_floored_std r r' ->
  fst (predict_body "d" acc r') = fst (predict_body "d" acc r).
Proof.
  intros (_ & _ & _ & _ & Ho & Hs & _ & _ & Hps & Hpo & _ & _).
  unfold_body. destruct r, r'; simpl in *. subst.
  destruct original_ll0; [|reflexivity].
  destruct perturbed_original_ll0; [|reflexivity].
  destruct sampled_ll0; [|reflexivity].
  destruct perturbed_sampled_ll0; reflexivity.
Qed.

Lemma predict_body_d_store (acc : Predictions) (r : Res) :
  snd (predict_body "d" acc r) = r.
Proof.
  destruct (predict_body "d" acc r) as [res r'] eqn:H.
  apply predict_body_not_z in H; [exact H | discriminate].
Qed.

Lemma for_each_d_after_floor (rs rs' : list Res) :
  Forall2 same_but_floored_std rs rs' ->
  forall acc,
    fst (for_each (predict_body "d") acc rs')
    = fst (for_each (predict_body "d") acc rs).
Proof.
  induction 1 as [|r r' rs rs' Hr _ IH]; intros acc; simpl.
  - reflexivity.
  - pose proof (predict_body_d_after_floor acc r r' Hr) as Hf.
    destruct (predict_body "d" acc r') as [[e'|a'] x'];
      destruct (predict_body "d" acc r) as [[e|a] x]; simpl in Hf;
      try discriminate.
    + inversion Hf; reflexivity.
    + inversion Hf; subst. specialize (IH a).
      destruct (for_each (predict_body "d") a rs');
        destruct (for_each (predict_body "d") a rs); simpl in *; exact IH.
Qed.

(** The command line runs the experiment under ['z'] and then under ['d']
    on the same list: the populations of the second run are those of a run
    under ['d'] on the records as aggregated. *)
Lemma difference_run_after_zscore_run :
  forall roc pr fmt results hyperparameters dataset,
    fst (predict "d"
           (snd (run_perturbation_experiment roc pr fmt results "z"
                   hyperparameters dataset)))
    = fst (predict "d" results).
Proof.
  intros roc pr fmt results hp dataset. unfold predict.
  apply for_each_d_after_floor.
  rewrite run_perturbation_experiment_store. apply predict_frame.
Qed.

(** ** Further facts about [query_lls] *)

Lemma query_lls_body_same_inputs get_ll get_lls (r r' : Res) res :
  query_lls_body get_ll get_lls r = (res, r') -> same_inputs r r'.
Proof.
  unfold query_lls_body, bind, gets, call, modify, same_inputs. simpl.
  destruct (get_lls (perturbed_sampled r)) as [e|ps];
    [intros H; inversion H; auto|].
  destruct (get_lls (perturbed_original r)) as [e|po];
    [intros H; inversion H; auto|].
  destruct (get_ll (original r)) as [e|o]; [intros H; inversion H; auto|].
  simpl.
  destruct (get_ll (sampled r)) as [e|s]; intros H; inversion H; auto.
Qed.

(** Whether [query_lls] returns or raises, the list keeps its length and
    every record keeps its passages and its perturbations. *)
Theorem query_lls_keeps_inputs :
  forall get_ll get_lls results,
    Forall2 same_inputs results (snd (query_lls get_ll get_lls results)) /\
    List.length (snd (query_lls get_ll get_lls results))
    = List.length results.
Proof.
  intros get_ll get_lls results.
  assert (H : Forall2 same_inputs results
                (snd (query_lls get_ll get_lls results))).
  { unfold query_lls.
    destruct (for_each (fun _ : unit => query_lls_body get_ll get_lls) tt
                results) as [res results'] eqn:E. simpl.
    eapply for_each_frame; [| |exact E].
    - intros r. unfold same_inputs. auto.
    - intros acc r res0 r' Hb.
      eapply query_lls_body_same_inputs; exact Hb. }
  split; [exact H|]. eapply Forall2_length_eq; exact H.
Qed.

(** ** Missing keys *)

Lemma predict_body_d_lacks (acc : Predictions) (r : Res) :
  lacks_difference_key r ->
  exists key,
    predict_body "d" acc r = (inl (KeyError key), r) /\
    In key difference_keys.
Proof.
  unfold lacks_difference_key, difference_keys. unfold_body. simpl.
  intros H.
  destruct (original_ll r); [|eexists; split; [reflexivity|simpl; auto]].
  destruct (perturbed_original_ll r);
    [|eexists; split; [reflexivity|simpl; auto]].
  destruct (sampled_ll r); [|eexists; split; [reflexivity|simpl; auto]].
  destruct (perturbed_sampled_ll r);
    [|eexists; split; [reflexivity|simpl; auto 6]].
  exfalso. destruct H as [H|[H|[H|H]]]; discriminate.
Qed.

Lemma has_or_lacks_difference_key (r : Res) :
  has_difference_keys r \/ lacks_difference_key r.
Proof.
  unfold has_difference_keys, lacks_difference_key, difference_real,
    difference_samples.
  destruct (original_ll r) as [o|]; [|auto].
  destruct (perturbed_original_ll r) as [po|]; [|auto].
  destruct (sampled_ll r) as [s|]; [|auto].
  destruct (perturbed_sampled_ll r) as [ps|]; [|auto 6].
  left. split; eexists; eexists _, _; repeat split.
Qed.

Lemma for_each_d_lacks (results : list Res) :
  Exists lacks_difference_key results ->
  forall acc,
  exists key,
    for_each (predict_body "d") acc results = (inl (KeyError key), results) /\
    In key difference_keys.
Proof.
  induction results as [|r rs IH]; intros H acc.
  - inversion H.
  - cbn [for_each].
    destruct (has_or_lacks_difference_key r) as [[[x Hx] [y Hy]]|Hl].
    + rewrite (predict_body_d_ok acc r x y Hx Hy).
      assert (Hrs : Exists lacks_difference_key rs).
      { inversion H as [? ? Hr|]; subst; [|assumption].
        exfalso. destruct Hx as (o & po & Ho & Hpo & _).
        destruct Hy as (s & ps & Hs & Hps & _).
        destruct Hr as [Hr|[Hr|[Hr|Hr]]]; congruence. }
      destruct (IH Hrs (append_samples y (append_real x acc)))
        as (key & -> & Hin).
      exists key. split; [reflexivity|exact Hin].
    + destruct (predict_body_d_lacks acc r Hl) as (key & -> & Hin).
      exists key. split; [reflexivity|exact Hin].
Qed.

(** When a record lacks one of the four keys the difference branch reads,
    the run under ['d'] raises [KeyError] for one of those keys, returns no
    outcome and leaves the records as they were. *)
Theorem difference_run_key_error :
  forall roc pr fmt results hyperparameters dataset,
    Exists lacks_difference_key results ->
    exists key,
      run_perturbation_experiment roc pr fmt results "d"
        hyperparameters dataset = (inl (KeyError key), results) /\
      In key difference_keys.
Proof.
  intros roc pr fmt results hp dataset H.
  unfold run_perturbation_experiment, predict.
  destruct (for_each_d_lacks results H (mkPredictions [] []))
    as (key & -> & Hin).
  exists key. split; [reflexivity|exact Hin].
Qed.

Lemma difference_run_key_error_witness :
  exists key,
    run_perturbation_experiment demo_metrics demo_metrics demo_format
      (demo_aggregated ++ demo_flat) "d" demo_hyperparameters "xsum"
    = (inl (KeyError key), demo_aggregated ++ demo_flat) /\
    In key difference_keys.
Proof.
  apply (difference_run_key_error demo_metrics demo_metrics demo_format
           (demo_aggregated ++ demo_flat) demo_hyperparameters "xsum").
  apply Exists_app. right. constructor. left. reflexivity.
Defined.

Lemma predict_body_z_lacks (acc : Predictions) (r : Res) :
  lacks_zscore_key r ->
  exists key r',
    predict_body "z" acc r = (inl (KeyError key), r') /\
    In key zscore_keys.
Proof.
  intros H.
  destruct (predict_body "z" acc r) as [[e|acc'] r'] eqn:Hb.
  - revert Hb. unfold_body. simpl. destruct r; simpl. intros Hb.
    split_options Hb; inversion Hb; subst; eexists _, _;
      (split; [reflexivity|unfold zscore_keys; simpl; auto 8]).
  - exfalso. apply predict_body_z_inv in Hb.
    destruct Hb as (x & y & (o & po & sd & Ho & Hpo & Hsd & _)
                    & (s & ps & sd' & Hs & Hps & Hsd' & _) & _).
    destruct H as [[H|[H|[H|H]]]|[H|H]]; congruence.
Qed.

Lemma fully_populated_or_lacks (r : Res) :
  fully_populated r \/ lacks_zscore_key r.
Proof.
  unfold fully_populated, lacks_zscore_key, lacks_difference_key,
    zscore_real, zscore_samples.
  destruct (original_ll r) as [o|]; [|auto].
  destruct (perturbed_original_ll r) as [po|]; [|auto].
  destruct (sampled_ll r) as [s|]; [|auto 6].
  destruct (perturbed_sampled_ll r) as [ps|]; [|auto 7].
  destruct (perturbed_original_ll_std r) as [sdo|]; [|auto].
  destruct (perturbed_sampled_ll_std r) as [sds|]; [|auto].
  left. split; eexists; eexists _, _, _; repeat split.
Qed.

Lemma for_each_z_lacks (results : list Res) :
  Exists lacks_zscore_key results ->
  forall acc,
  exists key results',
    for_each (predict_body "z") acc results = (inl (KeyError key), results') /\
    In key zscore_keys.
Proof.
  induction results as [|r rs IH]; intros H acc.
  - inversion H.
  - cbn [for_each].
    destruct (fully_populated_or_lacks r) as [[[x Hx] [y Hy]]|Hl].
    + rewrite (predict_body_z_ok acc r x y Hx Hy).
      assert (Hrs : Exists lacks_zscore_key rs).
      { inversion H as [? ? Hr|]; subst; [|assumption].
        exfalso. destruct Hx as (o & po & sd & Ho & Hpo & Hsd & _).
        destruct Hy as (s & ps & sd' & Hs & Hps & Hsd' & _).
        destruct Hr as [[Hr|[Hr|[Hr|Hr]]]|[Hr|Hr]]; congruence. }
      destruct (IH Hrs (append_samples y (append_real x acc)))
        as (key & rs' & -> & Hin).
      exists key, (floor_record r :: rs'). split; [reflexivity|exact Hin].
    + destruct (predict_body_z_lacks acc r Hl) as (key & r' & -> & Hin).
      exists key, (r' :: rs). split; [reflexivity|exact Hin].
Qed.

(** When a record lacks one of the six keys the z-score branch reads, the
    run under ['z'] raises [KeyError] for one of those keys and returns no
    outcome; the records it leaves differ from the ones it got at most by
    standard deviations of 0 that have become 1. *)
Theorem zscore_run_key_error :
  forall roc pr fmt results hyperparameters dataset,
    Exists lacks_zscore_key results ->
    exists key results',
      run_perturbation_experiment roc pr fmt results "z"
        hyperparameters dataset = (inl (KeyError key), results') /\
      In key zscore_keys /\
      Forall2 same_but_floored_std results results'.
Proof.
  intros roc pr fmt results hp dataset H.
  pose proof (predict_frame "z" results) as Hf.
  unfold run_perturbation_experiment. unfold predict in *.
  destruct (for_each_z_lacks results H (mkPredictions [] []))
    as (key & results' & E & Hin).
  rewrite E in *. simpl in Hf.
  exists key, results'. repeat split; assumption.
Qed.

Lemma zscore_run_key_error_witness :
  exists key results',
    run_perturbation_experiment demo_metrics demo_metrics demo_format
      (demo_flat_aggregated ++ demo_flat) "z" demo_hyperparameters "xsum"
    = (inl (KeyError key), results') /\
    In key zscore_keys /\
    Forall2 same_but_floored_std (demo_flat_aggregated ++ demo_flat) results'.
Proof.
  apply (zscore_run_key_error demo_metrics demo_metrics demo_format
           (demo_flat_aggregated ++ demo_flat) demo_hyperparameters "xsum").
  apply Exists_app. right. constructor. left. left. reflexivity.
Defined.

(** ** How the two criteria relate *)

Lemma np_std_nonneg (l : list R) : 0 <= np_std l.
Proof. unfold np_std. apply sqrt_pos. Qed.

Lemma floored_std_pos (l : list R) : 0 < floored_std l.
Proof.
  unfold floored_std, floored, std_or_one.
  destruct (1 <? List.length l)%nat.
  - pose proof (np_std_nonneg l).
    destruct (Req_dec_T (np_std l) 0); lra.
  - destruct (Req_dec_T 1 0); lra.
Qed.


Lemma zscore_real_populated r o s po ps (z : R) :
  zscore_real (populated_by r o s po ps) z ->
  z = (o - np_mean po) / floored_std po.
Proof.
  intros (o' & po' & sd & Ho & Hpo & Hsd & ->). simpl in *.
  injection Ho; injection Hpo; injection Hsd; intros; subst. reflexivity.
Qed.

Lemma zscore_samples_populated r o s po ps (w : R) :
  zscore_samples (populated_by r o s po ps) w ->
  w = (s - np_mean ps) / floored_std ps.
Proof.
  intros (s' & ps' & sd & Hs & Hps & Hsd & ->). simpl in *.
  injection Hs; injection Hps; injection Hsd; intros; subst. reflexivity.
Qed.

Lemma difference_real_populated r o s po ps (x : R) :
  difference_real (populated_by r o s po ps) x -> x = o - np_mean po.
Proof.
  intros (o' & po' & Ho & Hpo & ->). simpl in *.
  injection Ho; injection Hpo; intros; subst. reflexivity.
Qed.

Lemma difference_samples_populated r o s po ps (y : R) :
  difference_samples (populated_by r o s po ps) y -> y = s - np_mean ps.
Proof.
  intros (s' & ps' & Hs & Hps & ->). simpl in *.
  injection Hs; injection Hps; intros; subst. reflexivity.
Qed.

Lemma aggregated_zscore_vs_difference get_ll get_lls results0 results :
  Forall2 (aggregated get_ll get_lls) results0 results ->
  forall xs ys zs ws,
    Forall2 difference_real results xs ->
    Forall2 difference_samples results ys ->
    Forall2 zscore_real results zs ->
    Forall2 zscore_samples results ws ->
    Forall2 positive_multiple zs xs /\ Forall2 positive_multiple ws ys.
Proof.
  induction 1 as [|r0 r rs0 rs Hr _ IH]; intros xs ys zs ws Hx Hy Hz Hw;
    inversion Hx; inversion Hy; inversion Hz; inversion Hw; subst.
  - split; constructor.
  - destruct Hr as (o & s & po & ps & _ & _ & _ & _ & ->).
    destruct (IH _ _ _ _ H3 H8 H13 H18) as [IH1 IH2].
    match goal with
    | Ha : difference_real _ _, Hb : difference_samples _ _,
      Hc : zscore_real _ _, Hd : zscore_samples _ _ |- _ =>
        apply difference_real_populated in Ha;
        apply difference_samples_populated in Hb;
        apply zscore_real_populated in Hc;
        apply zscore_samples_populated in Hd
    end. subst.
    split; constructor; try assumption.
    + exists (floored_std po). pose proof (floored_std_pos po).
      split; [assumption|]. field. lra.
    + exists (floored_std ps). pose proof (floored_std_pos ps).
      split; [assumption|]. field. lra.
Qed.

(** For records filled by [query_lls], each score of the run under ['z']
    is the score of the run under ['d'] for the same record and passage
    divided by a strictly positive number: the two criteria give scores of
    the same sign. *)
Theorem zscore_is_scaled_difference :
  forall get_ll get_lls roc pr fmt results0 results hyperparameters dataset,
    query_lls get_ll get_lls results0 = (inr tt, results) ->
    exists outcome_z outcome_d results',
      run_perturbation_experiment roc pr fmt results "z"
        hyperparameters dataset = (inr outcome_z, results') /\
      run_perturbation_experiment roc pr fmt results "d"
        hyperparameters dataset = (inr outcome_d, results) /\
      Forall2 positive_multiple (real (predictions outcome_z))
        (real (predictions outcome_d)) /\
      Forall2 positive_multiple (samples (predictions outcome_z))
        (samples (predictions outcome_d)).
Proof.
  intros get_ll get_lls roc pr fmt results0 results hp dataset H.
  apply query_lls_returns in H.
  destruct (aggregated_scores _ _ _ _ H)
    as (xs & ys & zs & ws & Hx & Hy & Hz & Hw & _).
  destruct (run_z_ok roc pr fmt results hp dataset zs ws Hz Hw)
    as (oz & Hrz & Hpz).
  destruct (run_d_ok roc pr fmt results hp dataset xs ys Hx Hy)
    as (od & Hrd & Hpd).
  exists oz, od, (map floor_record results). rewrite Hpz, Hpd. simpl.
  destruct (aggregated_zscore_vs_difference _ _ _ _ H xs ys zs ws
              Hx Hy Hz Hw) as [H1 H2].
  repeat split; assumption.
Qed.

Lemma zscore_is_scaled_difference_witness :
  exists outcome_z outcome_d results',
    run_perturbation_experiment demo_metrics demo_metrics demo_format
      demo_aggregated "z" demo_hyperparameters "xsum"
    = (inr outcome_z, results') /\
    run_perturbation_experiment demo_metrics demo_metrics demo_format
      demo_aggregated "d" demo_hyperparameters "xsum"
    = (inr outcome_d, demo_aggregated) /\
    Forall2 positive_multiple (real (predictions outcome_z))
      (real (predictions outcome_d)) /\
    Forall2 positive_multiple (samples (predictions outcome_z))
      (samples (predictions outcome_d)).
Proof.
  apply (zscore_is_scaled_difference demo_get_ll demo_get_lls demo_metrics
           demo_metrics demo_format demo_results demo_aggregated
           demo_hyperparameters "xsum").
  reflexivity.
Defined.




(** ** The two experiments of the command line *)

(** For records filled by [query_lls], the command line's two runs, ['z']
    and then ['d'] on the same list, both return: the scores of the ['d']
    outcome are those of the records as aggregated, and the [raw_results]
    of both outcomes hold the records after the z-score guard, with every
    standard deviation of 0 replaced by 1. *)
Theorem main_experiments_outcomes :
  forall get_ll get_lls roc pr fmt results0 results hyperparameters dataset,
    query_lls get_ll get_lls results0 = (inr tt, results) ->
    exists outcome_z outcome_d,
      main_experiments roc pr fmt results hyperparameters dataset
      = (inr [outcome_z; outcome_d], map floor_record results) /\
      raw_results outcome_z = map floor_record results /\
      raw_results outcome_d = map floor_record results /\
      Forall2 (fun r x =>
                 ll_zscore (original_ll r) (all_perturbed_original_ll r) x)
              results (real (predictions outcome_z)) /\
      Forall2 (fun r y =>
                 ll_zscore (sampled_ll r) (all_perturbed_sampled_ll r) y)
              results (samples (predictions outcome_z)) /\
      Forall2 (fun r x =>
                 ll_minus_mean (original_ll r) (all_perturbed_original_ll r) x)
              results (real (predictions outcome_d)) /\
      Forall2 (fun r y =>
                 ll_minus_mean (sampled_ll r) (all_perturbed_sampled_ll r) y)
              results (samples (predictions outcome_d)).
Proof.
  intros get_ll get_lls roc pr fmt results0 results hp dataset H.
  apply query_lls_returns in H.
  destruct (aggregated_scores _ _ _ _ H)
    as (xs & ys & zs & ws & Hx & Hy & Hz & Hw & Hxm & Hym & Hzm & Hwm).
  destruct (run_z_ok roc pr fmt results hp dataset zs ws Hz Hw)
    as (oz & Hrz & Hpz).
  assert (Hx' : Forall2 difference_real (map floor_record results) xs).
  { clear - Hx. induction Hx as [|r x rs xs Hr _ IH]; simpl; constructor;
      [|exact IH].
    destruct Hr as (o & po & Ho & Hpo & ->). exists o, po.
    repeat split; assumption. }
  assert (Hy' : Forall2 difference_samples (map floor_record results) ys).
  { clear - Hy. induction Hy as [|r y rs ys Hr _ IH]; simpl; constructor;
      [|exact IH].
    destruct Hr as (s & ps & Hs & Hps & ->). exists s, ps.
    repeat split; assumption. }
  destruct (run_d_ok roc pr fmt (map floor_record results) hp dataset xs ys
              Hx' Hy') as (od & Hrd & Hpd).
  exists (with_raw_results (map floor_record results) oz), od.
  unfold main_experiments. rewrite Hrz, Hrd. simpl. rewrite Hpz, Hpd. simpl.
  repeat split; try assumption.
  unfold run_perturbation_experiment in Hrd.
  destruct (predict "d" (map floor_record results)) as [[e|preds] rs'];
    [discriminate|].
  inversion Hrd; subst. unfold make_outcome.
  destruct (roc (real preds) (samples preds)) as [[f t] a].
  destruct (pr (real preds) (samples preds)) as [[p r] a']. reflexivity.
Qed.

Lemma main_experiments_outcomes_witness :
  exists outcome_z outcome_d,
    main_experiments demo_metrics demo_metrics demo_format demo_aggregated
      demo_hyperparameters "xsum"
    = (inr [outcome_z; outcome_d], map floor_record demo_aggregated) /\
    raw_results outcome_z = map floor_record demo_aggregated /\
    raw_results outcome_d = map floor_record demo_aggregated /\
    Forall2 (fun r x =>
               ll_zscore (original_ll r) (all_perturbed_original_ll r) x)
            demo_aggregated (real (predictions outcome_z)) /\
    Forall2 (fun r y =>
               ll_zscore (sampled_ll r) (all_perturbed_sampled_ll r) y)
            demo_aggregated (samples (predictions outcome_z)) /\
    Forall2 (fun r x =>
               ll_minus_mean (original_ll r) (all_perturbed_original_ll r) x)
            demo_aggregated (real (predictions outcome_d)) /\
    Forall2 (fun r y =>
               ll_minus_mean (sampled_ll r) (all_perturbed_sampled_ll r) y)
            demo_aggregated (samples (predictions outcome_d)).
Proof.
  apply (main_experiments_outcomes demo_get_ll demo_get_lls demo_metrics
           demo_metrics demo_format demo_results demo_aggregated
           demo_hyperparameters "xsum").
  reflexivity.
Defined.

(** ** A constant added to every log likelihood *)









(** ** Text processing: [strip] *)

Lemma lstrip_head (s : text) (c : N) (q : text) :
  lstrip s = c :: q -> isspace c = false.
Proof.
  induction s as [|a s IH]; simpl; [discriminate|].
  destruct (isspace a) eqn:E; [exact IH|].
  intros H. injection H as <- _. exact E.
Qed.

Lemma lstrip_suffix (s : text) : exists p, s = p ++ lstrip s.
Proof.
  induction s as [|a s [p IH]]; simpl.
  - exists []. reflexivity.
  - destruct (isspace a).
    + exists (a :: p). simpl. f_equal. exact IH.
    + exists []. reflexivity.
Qed.

Lemma rstrip_last (s p : text) (c : N) :
  rstrip s = p ++ [c] -> isspace c = false.
Proof.
  unfold rstrip. intros H.
  apply (f_equal (@rev N)) in H. rewrite rev_involutive, rev_app_distr in H.
  simpl in H. eapply lstrip_head. exact H.
Qed.

Lemma rstrip_app_space (s : text) (c : N) :
  isspace c = true -> rstrip (s ++ [c]) = rstrip s.
Proof.
  intros H. unfold rstrip. rewrite rev_app_distr. simpl. rewrite H.
  reflexivity.
Qed.

Lemma lstrip_fixed (s : text) :
  (forall c q, s = c :: q -> isspace c = false) -> lstrip s = s.
Proof.
  destruct s as [|a s]; intros H; simpl; [reflexivity|].
  rewrite (H a s eq_refl). reflexivity.
Qed.

Lemma rstrip_fixed (s : text) :
  (forall p c, s = p ++ [c] -> isspace c = false) -> rstrip s = s.
Proof.
  intros H. unfold rstrip. rewrite lstrip_fixed.
  - apply rev_involutive.
  - intros c q E. apply (H (rev q) c).
    rewrite <- (rev_involutive s), E. reflexivity.
Qed.

Lemma strip_outer (s : text) :
  (forall c q, strip s = c :: q -> isspace c = false) /\
  (forall p c, strip s = p ++ [c] -> isspace c = false).
Proof.
  unfold strip. split.
  - intros c q H. eapply lstrip_head. exact H.
  - intros p c H. destruct (lstrip_suffix (rstrip s)) as [p' E].
    rewrite H in E. rewrite app_assoc in E.
    eapply rstrip_last. exact E.
Qed.

Lemma strip_fixed (s : text) :
  (forall c q, s = c :: q -> isspace c = false) ->
  (forall p c, s = p ++ [c] -> isspace c = false) ->
  strip s = s.
Proof.
  intros Hl Hr. unfold strip. rewrite rstrip_fixed by exact Hr.
  apply lstrip_fixed. exact Hl.
Qed.

Lemma strip_app_space (s : text) (c : N) :
  isspace c = true -> strip (s ++ [c]) = strip s.
Proof.
  intros H. unfold strip. rewrite rstrip_app_space by exact H. reflexivity.
Qed.

(** ** Text processing: [replace] *)

Lemma replace_absent (old new s : text) :
  occurs old s = false -> replace old new s = s.
Proof.
  destruct old as [|a old].
  - destruct s; simpl; discriminate.
  - unfold replace. induction s as [|c s IH]; intros H.
    + reflexivity.
    + cbn [occurs] in H. apply orb_false_iff in H. destruct H as [H1 H2].
      cbn [replace_from]. rewrite H1, (IH H2). reflexivity.
Qed.

Lemma replace_from_empty_length (old s : text) :
  forall skip,
    (List.length (replace_from old [] s skip) <= List.length s)%nat.
Proof.
  induction s as [|c s IH]; intros skip; cbn [replace_from].
  - simpl. lia.
  - destruct skip as [|k].
    + destruct (starts_with old (c :: s)).
      * cbn [app List.length]. specialize (IH (List.length old - 1)%nat). lia.
      * cbn [List.length]. specialize (IH 0%nat). lia.
    + cbn [List.length]. specialize (IH k). lia.
Qed.

Lemma replace_empty_length (old s : text) :
  (List.length (replace old [] s) <= List.length s)%nat.
Proof.
  destruct old as [|a old]; unfold replace.
  - cbn [app]. induction s as [|c s IH]; simpl; lia.
  - apply replace_from_empty_length.
Qed.

Lemma starts_with_self (old s : text) : starts_with old (old ++ s) = true.
Proof.
  induction old as [|a old IH]; simpl.
  - reflexivity.
  - rewrite N.eqb_refl, IH. reflexivity.
Qed.

Lemma replace_from_skip (old new x s : text) :
  replace_from old new (x ++ s) (List.length x) = replace_from old new s 0.
Proof.
  induction x as [|a x IH]; simpl.
  - destruct s; reflexivity.
  - exact IH.
Qed.

(** An occurrence at the start is replaced, and the scan goes on after
    it. *)
Lemma replace_prefix (a : N) (old new s : text) :
  replace (a :: old) new ((a :: old) ++ s)
  = new ++ replace (a :: old) new s.
Proof.
  unfold replace. cbn [app replace_from].
  pose proof (starts_with_self (a :: old) s) as H. cbn [app] in H.
  rewrite H.
  replace (List.length (a :: old) - 1)%nat with (List.length old)
    by (simpl; lia).
  rewrite replace_from_skip. reflexivity.
Qed.

(** ** Text processing: the functions of [data_processing.py] *)

Lemma concat_cols_loop_cells (row : string -> option text) :
  forall cols cells acc,
    cells_of row cols = Some cells ->
    concat_cols_loop row cols acc
    = inr (acc ++ flat_map (fun cell => cell ++ T " ") cells).
Proof.
  induction cols as [|col cols IH]; intros cells acc H; simpl in *.
  - injection H as <-. simpl. rewrite app_nil_r. reflexivity.
  - destruct (row col) as [cell|]; [|discriminate].
    destruct (cells_of row cols) as [cells'|]; [|discriminate].
    injection H as <-. rewrite (IH cells' _ eq_refl). simpl.
    rewrite <- !app_assoc. reflexivity.
Qed.

Lemma flat_map_join (cells : list text) :
  cells <> [] ->
  flat_map (fun cell => cell ++ T " ") cells = join (T " ") cells ++ T " ".
Proof.
  induction cells as [|cell cells IH]; intros Hne; [congruence|].
  destruct cells as [|cell' cells].
  - simpl. rewrite app_nil_r. reflexivity.
  - change (flat_map (fun c => c ++ T " ") (cell :: cell' :: cells))
      with ((cell ++ T " ")
            ++ flat_map (fun c => c ++ T " ") (cell' :: cells)).
    rewrite IH by discriminate.
    change (join (T " ") (cell :: cell' :: cells))
      with (cell ++ T " " ++ join (T " ") (cell' :: cells)).
    rewrite <- !app_assoc. reflexivity.
Qed.

(** When the row has every column of [cols], [concat_cols] returns the
    cells joined by single spaces and stripped: [' '.join(cells).strip()]. *)
Theorem concat_cols_is_stripped_join :
  forall row cols cells,
    cells_of row cols = Some cells ->
    concat_cols row cols = inr (strip (join (T " ") cells)).
Proof.
  intros row cols cells H. unfold concat_cols.
  rewrite (concat_cols_loop_cells row cols cells [] H). simpl app.
  destruct cells as [|cell cells]; [reflexivity|].
  rewrite flat_map_join by discriminate.
  change (T " ") with [32%N] at 2.
  rewrite strip_app_space by reflexivity. reflexivity.
Qed.

Lemma concat_cols_is_stripped_join_witness :
  concat_cols demo_row ["title"; "body"]
  = inr (strip (join (T " ") [T " A title"; T "and a body "])).
Proof.
  apply (concat_cols_is_stripped_join demo_row ["title"; "body"]
           [T " A title"; T "and a body "]).
  reflexivity.
Defined.

(** When the row lacks a column of [cols], [concat_cols] raises
    [KeyError] for the first column it lacks. *)
Theorem concat_cols_missing_column :
  forall row before col after,
    Forall (fun c => row c <> None) before ->
    row col = None ->
    concat_cols row (before ++ col :: after) = inl (KeyError col).
Proof.
  intros row before col after Hb Hc. unfold concat_cols.
  assert (H : forall acc,
             concat_cols_loop row (before ++ col :: after) acc
             = inl (KeyError col)).
  { induction Hb as [|c before Hc' _ IH]; intros acc; simpl.
    - rewrite Hc. reflexivity.
    - destruct (row c) as [cell|]; [apply IH|congruence]. }
  rewrite H. reflexivity.
Qed.

Lemma concat_cols_missing_column_witness :
  concat_cols demo_row (["title"] ++ "author" :: ["body"])
  = inl (KeyError "author").
Proof.
  apply (concat_cols_missing_column demo_row ["title"] "author" ["body"]).
  - constructor; [discriminate|constructor].
  - reflexivity.
Defined.

(** What [process_spaces] returns never starts and never ends with a
    whitespace character. *)
Theorem process_spaces_stripped :
  forall story,
    (forall c q, process_spaces story = c :: q -> isspace c = false) /\
    (forall p c, process_spaces story = p ++ [c] -> isspace c = false).
Proof.
  intros story. unfold process_spaces. apply strip_outer.
Qed.

(** What [concat_cols] returns never starts and never ends with a
    whitespace character, whatever the cells hold. *)
Theorem concat_cols_stripped :
  forall row cols out,
    concat_cols row cols = inr out ->
    (forall c q, out = c :: q -> isspace c = false) /\
    (forall p c, out = p ++ [c] -> isspace c = false).
Proof.
  intros row cols out H. unfold concat_cols in H.
  destruct (concat_cols_loop row cols []) as [e|acc]; [discriminate|].
  injection H as <-. apply strip_outer.
Qed.

Lemma concat_cols_stripped_witness :
  (forall c q,
     strip (join (T " ") [T " A title"; T "and a body "]) = c :: q ->
     isspace c = false) /\
  (forall p c,
     strip (join (T " ") [T " A title"; T "and a body "]) = p ++ [c] ->
     isspace c = false).
Proof.
  apply (concat_cols_stripped demo_row ["title"; "body"]
           (strip (join (T " ") [T " A title"; T "and a body "]))).
  reflexivity.
Defined.

Lemma fold_replace_absent (rules : list (text * text)) (s : text) :
  forallb (fun rule => negb (occurs (fst rule) s)) rules = true ->
  fold_left (fun s' rule => replace (fst rule) (snd rule) s') rules s = s.
Proof.
  induction rules as [|rule rules IH]; simpl; intros H.
  - reflexivity.
  - apply andb_true_iff in H. destruct H as [H1 H2].
    apply negb_true_iff in H1. rewrite (replace_absent _ _ _ H1).
    apply IH. exact H2.
Qed.

(** On a story in which none of the twenty patterns occurs,
    [process_spaces] only strips. *)
Theorem process_spaces_without_patterns :
  forall story,
    forallb (fun rule => negb (occurs (fst rule) story)) space_rules = true ->
    process_spaces story = strip story.
Proof.
  intros story H. unfold process_spaces.
  rewrite (fold_replace_absent space_rules story H). reflexivity.
Qed.

Lemma process_spaces_without_patterns_witness :
  process_spaces (T "  Once upon a time.  ") = strip (T "  Once upon a time.  ").
Proof.
  apply (process_spaces_without_patterns (T "  Once upon a time.  ")).
  vm_compute. reflexivity.
Defined.

(** [process_prompt] never lengthens a prompt, and returns a prompt in
    which neither tag occurs as it is. *)
Theorem process_prompt_removes_only :
  forall prompt,
    (List.length (process_prompt prompt) <= List.length prompt)%nat /\
    (occurs (T "[ WP ]") prompt = false ->
     occurs (T "[ OT ]") prompt = false ->
     process_prompt prompt = prompt).
Proof.
  intros prompt. unfold process_prompt. split.
  - pose proof (replace_empty_length (T "[ OT ]")
                  (replace (T "[ WP ]") [] prompt)).
    pose proof (replace_empty_length (T "[ WP ]") prompt). lia.
  - intros H1 H2. rewrite (replace_absent _ _ _ H1).
    apply replace_absent. exact H2.
Qed.

Lemma process_prompt_removes_only_witness :
  (List.length (process_prompt (T "Write a story."))
   <= List.length (T "Write a story."))%nat /\
  process_prompt (T "Write a story.") = T "Write a story.".
Proof.
  split.
  - apply (proj1 (process_prompt_removes_only (T "Write a story."))).
  - apply (proj2 (process_prompt_removes_only (T "Write a story.")));
      vm_compute; reflexivity.
Defined.

Lemma T_WP : T "[ WP ]" = [91; 32; 87; 80; 32; 93]%N.
Proof. reflexivity. Qed.

Lemma T_OT : T "[ OT ]" = [91; 32; 79; 84; 32; 93]%N.
Proof. reflexivity. Qed.

(** A tag at the very start of a prompt is removed, and the rest is
    processed as if the tag had not been there. *)
Theorem process_prompt_leading_tag :
  forall prompt,
    process_prompt (T "[ WP ]" ++ prompt) = process_prompt prompt /\
    process_prompt (T "[ OT ]" ++ prompt) = process_prompt prompt.
Proof.
  intros prompt. unfold process_prompt. rewrite T_WP, T_OT. split.
  - rewrite replace_prefix. reflexivity.
  - assert (H : replace [91; 32; 87; 80; 32; 93]%N []
                  ([91; 32; 79; 84; 32; 93]%N ++ prompt)
                = [91; 32; 79; 84; 32; 93]%N
                  ++ replace [91; 32; 87; 80; 32; 93]%N [] prompt).
    { unfold replace. simpl. reflexivity. }
    rewrite H, replace_prefix. reflexivity.
Qed.

(** The function [strip_text] applies to a cell never lengthens the cell,
    and returns a cell in which the message does not occur as it is. *)
Theorem strip_cell_removes_only :
  forall strip_msg cell,
    (List.length (strip_cell strip_msg cell) <= List.length cell)%nat /\
    (occurs strip_msg cell = false -> strip_cell strip_msg cell = cell).
Proof.
  intros strip_msg cell. unfold strip_cell. split.
  - apply replace_empty_length.
  - apply replace_absent.
Qed.

Lemma strip_cell_removes_only_witness :
  (List.length (strip_cell (T "As an AI") (T "A plain answer."))
   <= List.length (T "A plain answer."))%nat /\
  strip_cell (T "As an AI") (T "A plain answer.") = T "A plain answer.".
Proof.
  split.
  - apply (proj1 (strip_cell_removes_only (T "As an AI")
                    (T "A plain answer."))).
  - apply (proj2 (strip_cell_removes_only (T "As an AI")
                    (T "A plain answer."))).
    vm_compute. reflexivity.
Defined.
